(** * Wild Duck MSA plugin for ZoneMTA (index.js): model and properties

    The plugin registers six hooks on the host MTA.  The hooks are written in
    continuation-passing style; every one of them ends by calling [next]
    exactly once, with or without an error.  The model turns each hook into
    a function that returns the argument of that call, threads the
    per-envelope user cache ([users], a WeakMap in the source) and records
    the calls made to the external stores in a trace. *)

From stdpp Require Import base option list gmap strings pretty.
From Stdlib Require Import ZArith Ascii String Bool Lia.

Open Scope string_scope.
Open Scope Z_scope.

(** ** JavaScript strings

    A string is a sequence of code units; the model covers the code units
    0..255 (the ISO-8859-1 range), which is what [Ascii.ascii] holds. *)
Module JS.

Definition LF : ascii := "010"%char.
Definition CR : ascii := "013"%char.
Definition CRLF : string := String CR (String LF "").

(** Truthiness of a string value, and of a possibly undefined one. *)
Definition truthy (s : string) : bool :=
  match s with "" => false | _ => true end.

Definition truthy_opt (o : option string) : bool :=
  match o with Some s => truthy s | None => false end.

(** Truthiness of a possibly undefined number. *)
Definition truthy_num (o : option Z) : bool :=
  match o with Some n => negb (n =? 0) | None => false end.

(** String concatenation coerces [undefined] to its name. *)
Definition to_str (o : option string) : string :=
  match o with Some s => s | None => "undefined" end.

(** [a || b] on strings. *)
Definition or_else (o : option string) (d : string) : string :=
  match o with Some s => if truthy s then s else d | None => d end.

Fixpoint str_all (P : ascii -> bool) (s : string) : bool :=
  match s with
  | "" => true
  | String c r => P c && str_all P r
  end.

(** [s.lastIndexOf(c)] for a one-character search string: the index of the
    last occurrence, -1 when there is none. *)
Fixpoint lastIndexOf_from (c : ascii) (s : string) (i acc : Z) : Z :=
  match s with
  | "" => acc
  | String x r => lastIndexOf_from c r (i + 1) (if Ascii.eqb x c then i else acc)
  end.

Definition lastIndexOf (s : string) (c : ascii) : Z :=
  lastIndexOf_from c s 0 (-1).

(** [s.substr(start, length)]; [None] is an omitted length.  A negative
    start counts from the end, a length that is not positive gives the
    empty string. *)
Definition substr (s : string) (start : Z) (len : option Z) : string :=
  let size := Z.of_nat (String.length s) in
  let st := if start <? 0 then Z.max (size + start) 0 else Z.min start size in
  let n := match len with
           | None => size - st
           | Some l => Z.min (Z.max l 0) (size - st)
           end in
  if n <=? 0 then "" else substring (Z.to_nat st) (Z.to_nat n) s.

(** [s.charAt(0)]; the empty string when [s] is empty. *)
Definition charAt0 (s : string) : string :=
  match s with "" => "" | String c _ => String c "" end.

(** [s.toLowerCase()] on the code units 0..255: A-Z and the accented
    capitals 0xC0..0xDE (the multiplication sign 0xD7 excepted) move up
    by 32. *)
Definition lower_char (c : ascii) : ascii :=
  let n := N_of_ascii c in
  if ((65 <=? n) && (n <=? 90) ||
      (192 <=? n) && (n <=? 222) && negb (n =? 215))%N
  then ascii_of_N (n + 32) else c.

Fixpoint toLowerCase (s : string) : string :=
  match s with
  | "" => ""
  | String c r => String (lower_char c) (toLowerCase r)
  end.

(** White space as [trim] sees it, on the code units 0..255: TAB, LF, VT,
    FF, CR, SPACE and NO-BREAK SPACE. *)
Definition is_white_space (c : ascii) : bool :=
  let n := N_of_ascii c in
  ((9 <=? n) && (n <=? 13) || (n =? 32) || (n =? 160))%N.

Fixpoint trimStart (s : string) : string :=
  match s with
  | "" => ""
  | String c r => if is_white_space c then trimStart r else s
  end.

Fixpoint trimEnd (s : string) : string :=
  match s with
  | "" => ""
  | String c r =>
      match trimEnd r with
      | "" => if is_white_space c then "" else String c ""
      | r' => String c r'
      end
  end.

Definition trim (s : string) : string := trimEnd (trimStart s).

(** [s.normalize('NFC')].  No code unit below 256 is a combining mark and
    every one of them is its own composed form, so on the strings of the
    model NFC changes nothing.  On wider strings it composes (a letter and a
    combining mark into one code point); such strings are outside the
    model, and nothing here speaks about them. *)
Definition normalizeNFC (s : string) : string := s.

(** The characters the regular expression [.] does not match (below 256). *)
Definition is_line_terminator (c : ascii) : bool :=
  Ascii.eqb c LF || Ascii.eqb c CR.

Definition no_line_terminator (s : string) : bool :=
  str_all (fun c => negb (is_line_terminator c)) s.

(** [s.replace(/\+.*$/, '')]: the match starts at the first [+] from
    which the rest of the string can be consumed by [.*] up to the end of
    the input, that is, the first [+] with no line terminator after it;
    the match runs to the end and is removed. *)
Fixpoint replace_plus_tail (s : string) : string :=
  match s with
  | "" => ""
  | String c r =>
      if Ascii.eqb c "+" && no_line_terminator r then ""
      else String c (replace_plus_tail r)
  end.

(** [s.replace(/GMT/, rep)]: the first occurrence of GMT is replaced. *)
Fixpoint replace_GMT (rep : string) (s : string) : string :=
  match s with
  | "" => ""
  | String c r =>
      if String.prefix "GMT" s then rep +:+ substring 3 (String.length s - 3) s
      else String c (replace_GMT rep r)
  end.

(** [l.join(sep)]. *)
Fixpoint join (sep : string) (l : list string) : string :=
  match l with
  | [] => ""
  | [x] => x
  | x :: r => x +:+ sep +:+ join sep r
  end.

(** [l.includes(x)] on a list of strings. *)
Definition includes (l : list string) (x : string) : bool :=
  existsb (String.eqb x) l.

(** A number in a string concatenation. *)
Definition num_to_str (n : Z) : string := pretty n.

(** [Math.round(n / d)] for integers [n] and a positive integer [d]: the
    quotient rounded to the nearest integer, halves upwards. *)
Definition round_div (n d : Z) : Z := (2 * n + d) / (2 * d).

End JS.

(** ** Values exchanged with the host and the stores *)

(** A JavaScript [Error]: message, the [responseCode] the host turns into an
    SMTP reply when there is one, and the error's name. *)
Record Error := mkError {
  err_message : string;
  err_responseCode : option Z;
  err_name : string
}.

Definition new_Error (msg : string) : Error := mkError msg None "Error".

(** An element of [addressparser]'s result, also the argument of
    [_convertAddresses]: [{name, address}] or [{name, group}].  [{}] has
    no field set. *)
Record AddressObject := mkAddressObject {
  ao_name : option string;
  ao_address : option string;
  ao_group : bool
}.

Definition empty_object : AddressObject := mkAddressObject None None false.

(** A value that is a string or an array of strings ([app.config.mx],
    [app.config.interfaces]). *)
Inductive StringOrList :=
| One (s : string)
| Many (l : list string).

Definition truthy_sl (o : option StringOrList) : bool :=
  match o with
  | Some (One s) => JS.truthy s
  | Some (Many _) => true
  | None => false
  end.

(** [[].concat(v)]. *)
Definition concat_into_array (v : StringOrList) : list string :=
  match v with One s => [s] | Many l => l end.

(** [app.config]. *)
Record Config := mkConfig {
  cfg_interfaces : option StringOrList;
  cfg_secret : string;
  cfg_forwarder : option string;
  cfg_rewriteDomain : option string;
  cfg_mx : option StringOrList;
  cfg_mxPort : option Z;
  cfg_zoneAddress : option string;
  cfg_hostname : option string
}.

(** The projection of a user document that [getUser] asks for. *)
Record User := mkUser {
  u_id : string;
  u_username : string;
  u_address : string;
  u_quota : option Z;
  u_storageUsed : option Z;
  u_recipients : option Z
}.

(** What [userHandler.authenticate] hands to its callback on success. *)
Record AuthResult := mkAuthResult {
  ar_username : string;
  ar_scope : string;
  ar_enabled2fa : bool
}.

(** A query on the [addresses] collection and a document of it. *)
Record AddressQuery := mkAddressQuery {
  q_address : string;
  q_user : option string
}.

Record AddressData := mkAddressData {
  ad_address : string;
  ad_user : string
}.

(** The result object of [ttlcounter]. *)
Record CounterResult := mkCounterResult {
  cr_success : bool;
  cr_value : Z;
  cr_ttl : Z
}.

Record TLS := mkTLS {
  tls_version : option string;
  tls_name : option string
}.

(** The message handed to [messageHandler.add]. *)
Record ArchiveMeta := mkArchiveMeta {
  m_source : string;
  m_from : string;
  m_to : list string;
  m_origin : option string;
  m_originhost : option string;
  m_transhost : option string;
  m_transtype : option string;
  m_time : Z
}.

Record ArchiveMessage := mkArchiveMessage {
  a_user : string;
  a_specialUse : string;
  a_meta : ArchiveMeta;
  a_date : bool;
  a_flags : list string;
  a_raw : string;
  a_skipExisting : bool
}.

(** ** External libraries

    Pure functions of the packages the plugin requires.  [Headers] is the
    host's header collection ([envelope.headers], [delivery.headers]);
    [headers_add] is [add(key, value, Infinity)].  [punycode_toUnicode] is
    the string [punycode.toUnicode] returns; on a malformed [xn--] label the
    package throws a RangeError instead, and a call that throws is outside
    the model: what is said of [normalizeAddress] and of the hooks that call
    it is said of the calls that return. *)
Class Libraries := {
  Headers : Type;
  headers_getFirst : Headers -> string -> string;
  headers_update : Headers -> string -> string -> Headers;
  headers_add : Headers -> string -> string -> Headers;
  headers_build : Headers -> string;
  addressparser : string -> list AddressObject;
  convertAddresses : list AddressObject -> string;
  punycode_toUnicode : string -> string;
  srs_rewrite : string -> string -> string -> Error + string;
  toUTCString : option Z -> string
}.

(** What the header collection is relied on for: a header read back after
    an update carries the value written, and an update of one key leaves
    the others alone.  Keys are compared without regard to case. *)
Definition same_key (k1 k2 : string) : bool :=
  String.eqb (JS.toLowerCase k1) (JS.toLowerCase k2).

Class HeadersLaws (L : Libraries) := {
  getFirst_update_same : forall h k1 k2 v,
    same_key k1 k2 = true -> headers_getFirst (headers_update h k2 v) k1 = v;
  getFirst_update_other : forall h k1 k2 v,
    same_key k1 k2 = false ->
    headers_getFirst (headers_update h k2 v) k1 = headers_getFirst h k1
}.

(** ** The stores

    The answers of the stateful collaborators during one hook call. *)
Record World := mkWorld {
  authenticate : string -> string -> string -> Error + option AuthResult;
  users_findOne : string -> Error + option User;
  addresses_findOne : AddressQuery -> Error + option AddressData;
  ttlcounter : string -> Z -> Z -> Error + CounterResult;
  gridstore_read : string -> Error + list string;
  messageHandler_add : ArchiveMessage -> Error + option Z;
  Date_now : Z;
  os_hostname : string
}.

(** The calls made to them, in order. *)
Inductive Event :=
| CallAuthenticate (username password ip : string)
| CallUsersFindOne (username : string)
| CallAddressesFindOne (q : AddressQuery)
| CallTtlCounter (key : string) (cost ceiling : Z)
| CallReadStream (name : string)
| CallArchiveAdd (m : ArchiveMessage)
| Log (level category format : string) (args : list string).

(** The plugin's own state: the [users] WeakMap, keyed by the identity of
    the envelope or session object, and the trace of calls. *)
Record State := mkState {
  users : gmap nat User;
  trace : list Event
}.

Definition M (A : Type) : Type := State -> A * State.

Definition ret {A} (a : A) : M A := fun st => (a, st).

Definition bind {A B} (m : M A) (k : A -> M B) : M B :=
  fun st => let (a, st') := m st in k a st'.

Notation "'let*' x ':=' m 'in' k" := (bind m (fun x => k))
  (at level 10, x name, m at level 100, k at level 200).

Definition emit (e : Event) : M unit :=
  fun st => (tt, mkState (users st) (trace st ++ [e])).

Definition users_get (oid : nat) : M (option User) :=
  fun st => (users st !! oid, st).

Definition users_set (oid : nat) (u : User) : M unit :=
  fun st => (tt, mkState (<[oid := u]> (users st)) (trace st)).

(** What a hook passes to [next]. *)
Inductive HookResult :=
| Next
| NextErr (err : Error).

(** ** The address normalizer *)

(** The argument of [normalizeAddress]: a string, an object with the fields
    [name] and [address], or nothing ([undefined], [null]). *)
Inductive AddressArg :=
| AddrString (s : string)
| AddrObject (o : AddressObject)
| AddrUndefined.

Definition arg_of_opt (o : option string) : AddressArg :=
  match o with Some s => AddrString s | None => AddrUndefined end.

(** Its result: the canonical string, or [{name, address}] under
    [withNames]. *)
Inductive Normalized :=
| NormString (s : string)
| NormObject (name address : string).

Section Plugin.

Context {L : Libraries}.

Definition normalizeAddress (address : AddressArg) (withNames : bool) : Normalized :=
  let address :=
    match address with
    | AddrString s => AddrObject (mkAddressObject None (Some s) false)
    | _ => address
    end in
  match address with
  | AddrObject o =>
      match ao_address o with
      | Some a =>
          if JS.truthy a then
            let at_ := JS.lastIndexOf a "@" in
            let user :=
              JS.trim (JS.toLowerCase (JS.replace_plus_tail
                (JS.normalizeNFC (JS.substr a 0 (Some at_))))) in
            let domain := JS.trim (JS.toLowerCase (JS.substr a (at_ + 1) None)) in
            let addr := user +:+ "@" +:+ punycode_toUnicode domain in
            if withNames then NormObject (JS.or_else (ao_name o) "") addr
            else NormString addr
          else NormString ""
      | None => NormString ""
      end
  | _ => NormString ""
  end.

(** No hook passes [withNames]: what they use is the canonical string. *)
Definition normalized (address : AddressArg) : string :=
  match normalizeAddress address false with
  | NormString s => s
  | NormObject _ s => s
  end.

(** ** The Received header *)

(** The envelope of a message in the submission hooks.  [e_oid] is the
    identity of the object, the key of the [users] WeakMap. *)
Record Envelope := mkEnvelope {
  e_oid : nat;
  e_id : string;
  e_interface : string;
  e_from : string;
  e_to : list string;
  e_user : option string;
  e_origin : option string;
  e_originhost : option string;
  e_transhost : option string;
  e_transtype : option string;
  e_tls : option TLS;
  e_time : option Z;
  e_remoteAddress : option string;
  e_clientHostname : option string;
  e_hostNameAppearsAs : option string;
  e_transmissionType : option string;
  e_headers : Headers
}.

(** [envelope.originhost && envelope.originhost.charAt(0) !== '[' ?
    envelope.originhost : false]; [None] is [false]. *)
Definition received_originhost (envelope : Envelope) : option string :=
  match e_originhost envelope with
  | Some h =>
      if JS.truthy h && negb (String.eqb (JS.charAt0 h) "[") then Some h else None
  | None => None
  end.

Definition received_origin (envelope : Envelope) : string :=
  let origin :=
    if JS.truthy_opt (e_origin envelope)
    then "[" +:+ JS.to_str (e_origin envelope) +:+ "]" else "" in
  let originhost := received_originhost envelope in
  let origin :=
    ((if JS.truthy origin then [origin] else []) ++
     (match originhost with Some h => [h] | None => [] end))%list in
  if (1 <? Z.of_nat (List.length origin))
  then "(" +:+ JS.join " " origin +:+ ")"
  else JS.or_else (Some (JS.trim (JS.join " " origin))) "localhost".

Definition generateReceivedHeader (envelope : Envelope) (hostname : string) : string :=
  let key := "Received" in
  let originhost := received_originhost envelope in
  let origin := received_origin envelope in
  let value :=
    "" +:+
    "from" +:+ (if JS.truthy_opt (e_transhost envelope)
                then " " +:+ JS.to_str (e_transhost envelope) else "") +:+
    " " +:+ origin +:+
    (match originhost with Some _ => JS.CRLF | None => "" end) +:+
    (if JS.truthy_opt (e_user envelope)
     then " (Authenticated sender: " +:+ JS.to_str (e_user envelope) +:+ ")" +:+ JS.CRLF
     else (match originhost with Some _ => "" | None => JS.CRLF end)) +:+
    " by " +:+ hostname +:+
    " with " +:+ JS.to_str (e_transtype envelope) +:+
    " id " +:+ e_id envelope +:+
    (match e_to envelope with
     | [rcpt] => JS.CRLF +:+ " for <" +:+ rcpt +:+ ">"
     | _ => ""
     end) +:+
    (match e_tls envelope with
     | Some tls => JS.CRLF +:+ " (version=" +:+ JS.to_str (tls_version tls) +:+
                   " cipher=" +:+ JS.to_str (tls_name tls) +:+ ")"
     | None => ""
     end) +:+
    ";" +:+
    JS.CRLF +:+
    " " +:+ JS.replace_GMT "+0000" (toUTCString (e_time envelope)) in
  key +:+ ": " +:+ value.

(** ** The hooks *)

Variable cfg : Config.
Variable w : World.

Notation "m ';;' k" := (bind m (fun _ => k))
  (at level 100, k at level 200, right associativity).

Definition DQ : string := String (ascii_of_nat 34) "".
Definition quoted (s : string) : string := DQ +:+ s +:+ DQ.

Record Auth := mkAuth {
  auth_username : string;
  auth_password : string
}.

(** An SMTP session; [s_oid] is the identity of the object. *)
Record Session := mkSession {
  s_oid : nat;
  s_interface : string;
  s_user : option string;
  s_remoteAddress : string;
  s_envelopeId : string
}.

(** A delivery of the sending side, with its own envelope. *)
Record Delivery := mkDelivery {
  d_id : string;
  d_seq : string;
  d_interface : option string;
  d_from : option string;
  d_to : string;
  d_headers : Headers;
  d_mx : option (list string);
  d_mxPort : option Z;
  d_useLMTP : bool;
  d_zoneAddress : option string
}.

(** [[].concat(app.config.interfaces || '*')]. *)
Definition interfaces : list string :=
  concat_into_array
    (match cfg_interfaces cfg with
     | Some v => if truthy_sl (Some v) then v else One "*"
     | None => One "*"
     end).

Definition allInterfaces : bool := JS.includes interfaces "*".

Definition checkInterface (iface : string) : bool :=
  if allInterfaces || JS.includes interfaces iface then true else false.

(** [getUser(envelope, callback)]: [oid] is the identity of the envelope
    (or session) object, [user] its [user] field.  The result is what the
    callback receives. *)
Definition getUser (oid : nat) (user : option string) : M (Error + User) :=
  let* cached := users_get oid in
  match cached with
  | Some u => ret (inr u)
  | None =>
      if JS.truthy_opt user then
        let username := JS.to_str user in
        emit (CallUsersFindOne username) ;;
        match users_findOne w username with
        | inl err => ret (inl err)
        | inr None =>
            ret (inl (new_Error ("User " +:+ quoted username +:+ " was not found")))
        | inr (Some u) => users_set oid u ;; ret (inr u)
        end
      else ret (inl (new_Error "Insufficient user info"))
  end.

(** *** smtp:auth *)
Definition smtp_auth (auth : Auth) (session : Session) : M (Auth * HookResult) :=
  if negb (checkInterface (s_interface session)) then ret (auth, Next)
  else
    emit (CallAuthenticate (auth_username auth) (auth_password auth)
            (s_remoteAddress session)) ;;
    match authenticate w (auth_username auth) (auth_password auth)
            (s_remoteAddress session) with
    | inl err => ret (auth, NextErr err)
    | inr result =>
        match result with
        | Some r =>
            if String.eqb (ar_scope r) "master" && ar_enabled2fa r
            then ret (auth, NextErr (mkError "Authentication failed" (Some 535) "Error"))
            else ret (mkAuth (ar_username r) (auth_password auth), Next)
        | None =>
            ret (auth, NextErr (mkError "Authentication failed" (Some 535) "Error"))
        end
    end.

(** *** message:headers *)
Definition set_from (envelope : Envelope) (from : string) : Envelope :=
  mkEnvelope (e_oid envelope) (e_id envelope) (e_interface envelope) from
    (e_to envelope) (e_user envelope) (e_origin envelope) (e_originhost envelope)
    (e_transhost envelope) (e_transtype envelope) (e_tls envelope) (e_time envelope)
    (e_remoteAddress envelope) (e_clientHostname envelope)
    (e_hostNameAppearsAs envelope) (e_transmissionType envelope) (e_headers envelope).

Definition set_headers (envelope : Envelope) (h : Headers) : Envelope :=
  mkEnvelope (e_oid envelope) (e_id envelope) (e_interface envelope) (e_from envelope)
    (e_to envelope) (e_user envelope) (e_origin envelope) (e_originhost envelope)
    (e_transhost envelope) (e_transtype envelope) (e_tls envelope) (e_time envelope)
    (e_remoteAddress envelope) (e_clientHostname envelope)
    (e_hostNameAppearsAs envelope) (e_transmissionType envelope) h.

(** The first address of the From: header, [None] when the header is
    missing or holds no address, [{}] when the first entry is a group. *)
Definition first_from_object (headerFrom : string) : option AddressObject :=
  if JS.truthy headerFrom then
    match addressparser headerFrom with
    | [] => None
    | o :: _ => Some (if ao_group o then empty_object else o)
    end
  else None.

Definition set_address (o : AddressObject) (a : string) : AddressObject :=
  mkAddressObject (ao_name o) (Some a) (ao_group o).

Definition message_headers (envelope : Envelope) : M (Envelope * HookResult) :=
  if negb (checkInterface (e_interface envelope)) then ret (envelope, Next)
  else
    let headerFrom := headers_getFirst (e_headers envelope) "from" in
    let headerFromObj := first_from_object headerFrom in
    let* r := getUser (e_oid envelope) (e_user envelope) in
    match r with
    | inl err => ret (envelope, NextErr err)
    | inr user =>
        let q := mkAddressQuery (normalized (AddrString (e_from envelope)))
                   (Some (u_id user)) in
        emit (CallAddressesFindOne q) ;;
        match addresses_findOne w q with
        | inl err => ret (envelope, NextErr err)
        | inr addressData =>
            let* envelope :=
              match addressData with
              | Some _ => ret envelope
              | None =>
                  emit (Log "info" "Rewrite"
                          ("%s RWENVELOPE User %s tries to use " +:+ quoted "%s" +:+
                           " as Return Path address, replacing with " +:+ quoted "%s")
                          [e_id envelope; u_username user; e_from envelope;
                           u_address user]) ;;
                  ret (set_from envelope (u_address user))
              end in
            match headerFromObj with
            | None => ret (envelope, Next)
            | Some headerFromObj =>
                let q := mkAddressQuery
                           (normalized (arg_of_opt (ao_address headerFromObj)))
                           (Some (u_id user)) in
                emit (CallAddressesFindOne q) ;;
                match addresses_findOne w q with
                | inl err => ret (envelope, NextErr err)
                | inr (Some _) => ret (envelope, Next)
                | inr None =>
                    emit (Log "info" "Rewrite"
                            ("%s RWFROM User %s tries to use " +:+ quoted "%s" +:+
                             " as From address, replacing with " +:+ quoted "%s")
                            [e_id envelope; u_username user;
                             JS.to_str (ao_address headerFromObj);
                             e_from envelope]) ;;
                    let headerFromObj := set_address headerFromObj (e_from envelope) in
                    let newHeaderFrom := convertAddresses [headerFromObj] in
                    let headers :=
                      headers_update
                        (headers_update (e_headers envelope) "From" newHeaderFrom)
                        "X-WildDuck-Original-From" headerFrom in
                    ret (set_headers envelope headers, Next)
                end
            end
        end
    end.

(** *** smtp:rcpt_to *)

(** The remaining time of the window for the reply; [None] is [false]. *)
Definition ttlHuman (ttl : Z) : option string :=
  if negb (ttl =? 0) then
    if ttl <? 60 then Some (JS.num_to_str ttl +:+ " seconds")
    else if ttl <? 3600 then Some (JS.num_to_str (JS.round_div ttl 60) +:+ " minutes")
    else Some (JS.num_to_str (JS.round_div ttl 3600) +:+ " hours")
  else None.

Definition limit_error (ttl : Z) : Error :=
  mkError
    ("You reached a daily sending limit for your account" +:+
     (if negb (ttl =? 0)
      then ". Limit expires in " +:+
           match ttlHuman ttl with Some h => h | None => "false" end
      else ""))
    (Some 550) "SMTPResponse".

Definition smtp_rcpt_to (address : string) (session : Session) : M HookResult :=
  if negb (checkInterface (s_interface session)) then ret Next
  else
    let* r := getUser (s_oid session) (s_user session) in
    match r with
    | inl err => ret Next
    | inr user =>
        if negb (JS.truthy_num (u_recipients user)) then ret Next
        else
          let recipients := default 0 (u_recipients user) in
          let key := "wdr:" +:+ u_id user in
          emit (CallTtlCounter key 1 recipients) ;;
          match ttlcounter w key 1 recipients with
          | inl err => ret (NextErr err)
          | inr result =>
              let success := cr_success result in
              let sent := cr_value result in
              let ttl := cr_ttl result in
              if negb success then
                emit (Log "info" "Sender"
                        "%s RCPTDENY denied %s sent=%s allowed=%s expires=%ss."
                        [s_envelopeId session; address; JS.num_to_str sent;
                         JS.num_to_str recipients; JS.num_to_str ttl]) ;;
                ret (NextErr (limit_error ttl))
              else
                emit (Log "info" "Sender"
                        "%s RCPTACCEPT accepted %s sent=%s allowed=%s"
                        [s_envelopeId session; address; JS.num_to_str sent;
                         JS.num_to_str recipients]) ;;
                ret Next
          end
    end.

(** *** message:queue *)

(** [a > b] on possibly undefined numbers: false when one is missing. *)
Definition num_gt (a b : option Z) : bool :=
  match a, b with
  | Some x, Some y => y <? x
  | _, _ => false
  end.

Definition archive_message (envelope : Envelope) (user : User) (raw : string)
  : ArchiveMessage :=
  mkArchiveMessage (u_id user) "\Sent"
    (mkArchiveMeta "SMTP" (e_from envelope) (e_to envelope)
       (e_remoteAddress envelope) (e_clientHostname envelope)
       (e_hostNameAppearsAs envelope) (e_transmissionType envelope) (Date_now w))
    false ["\Seen"] raw true.

Definition message_queue (envelope : Envelope) : M HookResult :=
  if negb (checkInterface (e_interface envelope)) then ret Next
  else
    let* r := getUser (e_oid envelope) (e_user envelope) in
    match r with
    | inl err => ret (NextErr err)
    | inr user =>
        if JS.truthy_num (u_quota user) && num_gt (u_storageUsed user) (u_quota user)
        then
          emit (Log "info" "Rewrite" "%s MSAUPLSKIP user=%s message=over quota"
                  [e_id envelope; JS.to_str (e_user envelope)]) ;;
          ret Next
        else
          let chunks :=
            [ "Return-Path: " +:+ e_from envelope +:+ JS.CRLF +:+
              generateReceivedHeader envelope
                (JS.or_else (cfg_hostname cfg) (os_hostname w)) +:+ JS.CRLF;
              headers_build (e_headers envelope) ] in
          let name := "message " +:+ e_id envelope in
          emit (CallReadStream name) ;;
          match gridstore_read w name with
          | inl err => ret (NextErr err)
          | inr body =>
              let chunks := (chunks ++ body)%list in
              let message := archive_message envelope user (String.concat "" chunks) in
              emit (CallArchiveAdd message) ;;
              match messageHandler_add w message with
              | inl err =>
                  emit (Log "error" "Rewrite" "%s MSAUPLFAIL user=%s error=%s"
                          [e_id envelope; JS.to_str (e_user envelope); err_message err])
              | inr (Some uid) =>
                  emit (Log "info" "Rewrite" "%s MSAUPLSUCC user=%s uid=%s"
                          [e_id envelope; JS.to_str (e_user envelope);
                           JS.num_to_str uid])
              | inr None =>
                  emit (Log "info" "Rewrite"
                          "%s MSAUPLSKIP user=%s message=already exists"
                          [e_id envelope; JS.to_str (e_user envelope)])
              end ;;
              ret Next
          end
    end.

(** *** sender:headers *)
Definition set_sender (delivery : Delivery) (from : option string) (h : Headers)
  : Delivery :=
  mkDelivery (d_id delivery) (d_seq delivery) (d_interface delivery) from
    (d_to delivery) h (d_mx delivery) (d_mxPort delivery) (d_useLMTP delivery)
    (d_zoneAddress delivery).

Definition sender_headers (delivery : Delivery) : M (Delivery * HookResult) :=
  if negb (JS.truthy_opt (d_from delivery)) ||
     negb (bool_decide (d_interface delivery = cfg_forwarder cfg))
  then ret (delivery, Next)
  else
    let from := JS.or_else (d_from delivery) "" in
    let fromDomain :=
      JS.toLowerCase (JS.substr from (JS.lastIndexOf from "@" + 1) None) in
    let srsDomain := cfg_rewriteDomain cfg in
    let headers :=
      headers_add
        (headers_add
           (headers_add (d_headers delivery) "X-Original-Sender" from)
           "X-Zone-Forwarded-For" from)
        "X-Zone-Forwarded-To" (d_to delivery) in
    match srs_rewrite (cfg_secret cfg)
            (JS.substr from 0 (Some (JS.lastIndexOf from "@"))) fromDomain with
    | inr alias =>
        ret (set_sender delivery (Some (alias +:+ "@" +:+ JS.to_str srsDomain)) headers,
             Next)
    | inl E =>
        emit (Log "error" "SRS"
                ("%s.%s SRSFAIL Failed rewriting " +:+ quoted "%s" +:+ ". %s")
                [d_id delivery; d_seq delivery; from; err_message E]) ;;
        ret (set_sender delivery (d_from delivery) headers, Next)
    end.

(** *** sender:fetch *)
Definition set_route (delivery : Delivery) : Delivery :=
  mkDelivery (d_id delivery) (d_seq delivery) (d_interface delivery)
    (d_from delivery) (d_to delivery) (d_headers delivery)
    (Some (match cfg_mx cfg with
           | Some v => if truthy_sl (Some v) then concat_into_array v else []
           | None => []
           end))
    (cfg_mxPort cfg) true (cfg_zoneAddress cfg).

Definition sender_fetch (delivery : Delivery) : M (Delivery * HookResult) :=
  let q := mkAddressQuery (normalized (AddrString (d_to delivery))) None in
  emit (CallAddressesFindOne q) ;;
  match addresses_findOne w q with
  | inl err => ret (delivery, NextErr err)
  | inr None => ret (delivery, Next)
  | inr (Some _) => ret (set_route delivery, Next)
  end.

(** The hook is registered only under [if (app.config.mx)]. *)
Definition sender_fetch_hook : option (Delivery -> M (Delivery * HookResult)) :=
  if truthy_sl (cfg_mx cfg) then Some sender_fetch else None.

End Plugin.

Arguments Envelope {L}.
Arguments Delivery {L}.

(** ** Vocabulary of the properties *)

(** The string [normalizeAddress] works on, when there is one. *)
Definition address_of (a : AddressArg) : option string :=
  match a with
  | AddrString s => Some s
  | AddrObject o => ao_address o
  | AddrUndefined => None
  end.

(** The text before the last [@] and the text after it. *)
Definition local_part (s : string) : string :=
  JS.substr s 0 (Some (JS.lastIndexOf s "@")).

Definition domain_part (s : string) : string :=
  JS.substr s (JS.lastIndexOf s "@" + 1) None.

Definition canonical_domain {L : Libraries} (s : string) : string :=
  punycode_toUnicode (JS.trim (JS.toLowerCase (domain_part s))).

Definition no_at_sign (s : string) : bool :=
  JS.str_all (fun c => negb (Ascii.eqb c "@")) s.

Definition no_plus_sign (s : string) : bool :=
  JS.str_all (fun c => negb (Ascii.eqb c "+")) s.

(** The calls to the counter store and to the archive in a trace. *)
Definition is_counter_call (e : Event) : bool :=
  match e with CallTtlCounter _ _ _ => true | _ => false end.

Definition is_archive_call (e : Event) : bool :=
  match e with CallReadStream _ | CallArchiveAdd _ => true | _ => false end.

Definition counter_calls (st : State) : list Event :=
  List.filter is_counter_call (trace st).

Definition archive_calls (st : State) : list Event :=
  List.filter is_archive_call (trace st).

(** The start of the reply of the recipient gate. *)
Definition limit_reached : string :=
  "You reached a daily sending limit for your account".

(** The error of the authentication hook. *)
Definition authentication_failed : Error :=
  mkError "Authentication failed" (Some 535) "Error".

(** The answers of the identity store on which the hook refuses. *)
Definition refused (result : option AuthResult) : Prop :=
  result = None \/
  exists r, result = Some r /\ ar_scope r = "master" /\ ar_enabled2fa r = true.

(** The origin of a message as the Received header sees it: the IP literal
    is there when [origin] is a non-empty string; the client hostname is
    resolvable when it is a non-empty string that does not start with a
    bracket (an unresolved client shows as its bracketed address), and it
    carries no surrounding white space. *)
Definition has_ip {L : Libraries} (envelope : Envelope) (ip : string) : Prop :=
  e_origin envelope = Some ip /\ ip <> "".

Definition no_ip {L : Libraries} (envelope : Envelope) : Prop :=
  JS.truthy_opt (e_origin envelope) = false.

Definition has_host {L : Libraries} (envelope : Envelope) (h : string) : Prop :=
  e_originhost envelope = Some h /\ h <> "" /\ JS.charAt0 h <> "[" /\ JS.trim h = h.

Definition no_host {L : Libraries} (envelope : Envelope) : Prop :=
  received_originhost envelope = None.

(** The lookups of a user document in a trace. *)
Definition is_user_lookup (e : Event) : bool :=
  match e with CallUsersFindOne _ => true | _ => false end.

Definition user_lookups (st : State) : list Event :=
  List.filter is_user_lookup (trace st).

(** A string of white space only. *)
Definition white_space (s : string) : bool := JS.str_all JS.is_white_space s.

(** An envelope with another client hostname, and with other recipients. *)
Definition set_originhost {L : Libraries} (envelope : Envelope) (h : option string)
  : Envelope :=
  mkEnvelope (e_oid envelope) (e_id envelope) (e_interface envelope) (e_from envelope)
    (e_to envelope) (e_user envelope) (e_origin envelope) h
    (e_transhost envelope) (e_transtype envelope) (e_tls envelope) (e_time envelope)
    (e_remoteAddress envelope) (e_clientHostname envelope)
    (e_hostNameAppearsAs envelope) (e_transmissionType envelope) (e_headers envelope).

Definition set_to {L : Libraries} (envelope : Envelope) (to : list string) : Envelope :=
  mkEnvelope (e_oid envelope) (e_id envelope) (e_interface envelope) (e_from envelope)
    to (e_user envelope) (e_origin envelope) (e_originhost envelope)
    (e_transhost envelope) (e_transtype envelope) (e_tls envelope) (e_time envelope)
    (e_remoteAddress envelope) (e_clientHostname envelope)
    (e_hostNameAppearsAs envelope) (e_transmissionType envelope) (e_headers envelope).

(** ** A sample installation

    A small header collection (a list of lines, newest first, one line per
    key) and stand-ins for the other packages, to run the hooks on concrete
    messages.  [punycode_toUnicode] is the identity, as the package is on
    domains without an [xn--] label. *)
Module Sample.

Definition lines := list (string * string).

Definition getFirst (h : lines) (k : string) : string :=
  match List.find (fun l => same_key k (fst l)) h with
  | Some l => snd l
  | None => ""
  end.

Definition update (h : lines) (k v : string) : lines :=
  (k, v) :: List.filter (fun l => negb (same_key k (fst l))) h.

Definition add (h : lines) (k v : string) : lines := (h ++ [(k, v)])%list.

Definition build (h : lines) : string :=
  String.concat "" (List.map (fun l => fst l +:+ ": " +:+ snd l +:+ JS.CRLF) h)
  +:+ JS.CRLF.

Definition parse (s : string) : list AddressObject :=
  [mkAddressObject None (Some s) false].

Definition convert (l : list AddressObject) : string :=
  JS.join ", " (List.map (fun o => JS.to_str (ao_address o)) l).

Definition rewrite (secret l d : string) : Error + string :=
  inr ("SRS0=" +:+ secret +:+ "=" +:+ d +:+ "=" +:+ l).

#[export] Instance libraries : Libraries := {|
  Headers := lines;
  headers_getFirst := getFirst;
  headers_update := update;
  headers_add := add;
  headers_build := build;
  addressparser := parse;
  convertAddresses := convert;
  punycode_toUnicode := fun d => d;
  srs_rewrite := rewrite;
  toUTCString := fun _ => "Wed, 03 Aug 2016 11:32:07 GMT"
|}.

Definition config : Config :=
  mkConfig None "secret" (Some "forwarder") (Some "srs.example.com")
    (Some (Many ["lmtp.example.com"])) (Some 24) (Some "10.0.0.1")
    (Some "mx.example.com").

Definition alice : User :=
  mkUser "59a0" "alice" "alice@example.com" (Some 1000) (Some 10) (Some 100).

(** A store that knows one user and the address alice@example.com; the
    counter store answers that the window is exhausted. *)
Definition world_of (u : User) : World :=
  mkWorld
    (fun name p _ =>
       inr (if String.eqb name (u_username u) && String.eqb p "pass"
            then Some (mkAuthResult (u_username u) "user" false) else None))
    (fun name => inr (if String.eqb name (u_username u) then Some u else None))
    (fun q => inr (if String.eqb (q_address q) "alice@example.com"
                   then Some (mkAddressData "alice@example.com" "59a0") else None))
    (fun _ _ cap => inr (mkCounterResult false (cap + 1) 90))
    (fun _ => inr ["body"])
    (fun _ => inr (Some 7))
    1470223927000
    "localhost.localdomain".

Definition world : World := world_of alice.

Definition start : State := mkState ∅ [].

Definition session : Session :=
  mkSession 1 "feeder" (Some "alice") "203.0.113.5" "e1".

Definition envelope (from : string) (h : lines) : Envelope :=
  mkEnvelope 2 "abc123" "feeder" from ["bob@example.org"] (Some "alice")
    (Some "203.0.113.5") None (Some "mail.example.com") (Some "ESMTP") None
    (Some 1470223927000) None None None None h.

(** An envelope of an unauthenticated client, for the Received header. *)
Definition relayed (origin originhost : option string) : Envelope :=
  mkEnvelope 3 "abc123" "feeder" "carol@example.net" ["bob@example.org"] None
    origin originhost (Some "mail.example.com") (Some "ESMTP") None
    (Some 1470223927000) None None None None [].

Definition delivery (iface from : option string) (to : string) : Delivery :=
  mkDelivery "d1" "001" iface from to [] None None false None.

(** The same delivery routed to the local store. *)
Definition routed (iface from : option string) (to : string) : Delivery :=
  mkDelivery "d1" "001" iface from to [] (Some ["lmtp.example.com"]) (Some 24)
    true (Some "10.0.0.1").

(** An installation that serves the interface feeder only. *)
Definition restricted : Config :=
  mkConfig (Some (Many ["feeder"])) "secret" (Some "forwarder") (Some "srs.example.com")
    None None None None.

Definition outage : Error := mkError "connection lost" None "MongoError".

(** A store that knows one user, with the answers of the address directory,
    of the counter store, of the body stream and of the archive given. *)
Definition world_with (u : User)
    (directory : AddressQuery -> Error + option AddressData)
    (counter : Error + CounterResult) (stream : Error + list string)
    (archive : Error + option Z) : World :=
  mkWorld
    (fun _ _ _ => inl outage)
    (fun name => inr (if String.eqb name (u_username u) then Some u else None))
    directory
    (fun _ _ _ => counter)
    (fun _ => stream)
    (fun _ => archive)
    1470223927000
    "localhost.localdomain".

(** The same packages with an SRS rewriter that throws. *)
#[export] Instance throwing : Libraries := {|
  Headers := lines;
  headers_getFirst := getFirst;
  headers_update := update;
  headers_add := add;
  headers_build := build;
  addressparser := parse;
  convertAddresses := convert;
  punycode_toUnicode := fun d => d;
  srs_rewrite := fun _ _ _ => inl (new_Error "Invalid address");
  toUTCString := fun _ => "Wed, 03 Aug 2016 11:32:07 GMT"
|}.

End Sample.

(** * Properties *)

(** ** Facts on strings *)
Module JSFacts.
Import JS.

#[local] Arguments String.append : simpl nomatch.

Lemma append_assoc (a b c : string) : (a +:+ b) +:+ c = a +:+ (b +:+ c).
Proof. induction a as [|x a IH]; simpl; [reflexivity | now rewrite IH]. Qed.

Lemma truthy_append_cons (a : string) (c : ascii) (b : string) :
  truthy (a +:+ String c b) = true.
Proof. destruct a; reflexivity. Qed.

Lemma str_all_impl (P Q : ascii -> bool) (s : string) :
  (forall c, P c = true -> Q c = true) ->
  str_all P s = true -> str_all Q s = true.
Proof.
  intros HPQ. induction s as [|c r IH]; simpl; [easy|].
  rewrite !andb_true_iff. intros [Hc Hr]. auto.
Qed.

(** *** The primitives on small inputs *)

Example substr_negative_length : substr "user" 0 (Some (-1)) = "".
Proof. reflexivity. Qed.

Example substr_from_end : substr "hello" (-3) (Some 2) = "ll".
Proof. reflexivity. Qed.

Example substr_rest : substr "a@b.c" (lastIndexOf "a@b.c" "@" + 1) None = "b.c".
Proof. reflexivity. Qed.

Example lastIndexOf_last : lastIndexOf "a@b@c" "@" = 3.
Proof. reflexivity. Qed.

Example lastIndexOf_none : lastIndexOf "abc" "@" = -1.
Proof. reflexivity. Qed.

Example trim_both_ends : trim (String LF "  a b  " +:+ CRLF) = "a b".
Proof. reflexivity. Qed.

Example toLowerCase_mixed : toLowerCase "John.Doe+X@Example.COM" = "john.doe+x@example.com".
Proof. reflexivity. Qed.

Example replace_plus_tail_first : replace_plus_tail "a+b+c" = "a".
Proof. reflexivity. Qed.

Example replace_plus_tail_line_feed :
  replace_plus_tail ("a+b" +:+ String LF "c+d") = "a+b" +:+ String LF "c".
Proof. reflexivity. Qed.

Example replace_GMT_date :
  replace_GMT "+0000" "Wed, 03 Aug 2016 11:32:07 GMT" = "Wed, 03 Aug 2016 11:32:07 +0000".
Proof. reflexivity. Qed.

Example round_div_half_up : round_div 90 60 = 2 /\ round_div 89 60 = 1 /\ round_div 5400 3600 = 2.
Proof. repeat split. Qed.

(** *** lastIndexOf and substr on [u @ d] *)

Lemma lastIndexOf_from_absent (c : ascii) (s : string) (i acc : Z) :
  str_all (fun x => negb (Ascii.eqb x c)) s = true ->
  lastIndexOf_from c s i acc = acc.
Proof.
  revert i acc. induction s as [|x r IH]; simpl; intros i acc H; [reflexivity|].
  apply andb_true_iff in H as [Hx Hr].
  apply negb_true_iff in Hx. rewrite Hx. now apply IH.
Qed.

Lemma lastIndexOf_from_split (c : ascii) (u d : string) (i acc : Z) :
  str_all (fun x => negb (Ascii.eqb x c)) d = true ->
  lastIndexOf_from c (u +:+ String c d) i acc = i + Z.of_nat (String.length u).
Proof.
  intros Hd. revert i acc. induction u as [|x u IH]; intros i acc.
  - simpl. rewrite Ascii.eqb_refl, lastIndexOf_from_absent by assumption. lia.
  - cbn [String.append lastIndexOf_from String.length]. rewrite IH. lia.
Qed.

Lemma lastIndexOf_split (c : ascii) (u d : string) :
  str_all (fun x => negb (Ascii.eqb x c)) d = true ->
  lastIndexOf (u +:+ String c d) c = Z.of_nat (String.length u).
Proof. intros Hd. unfold lastIndexOf. now rewrite lastIndexOf_from_split. Qed.

Lemma length_append (a b : string) :
  String.length (a +:+ b) = (String.length a + String.length b)%nat.
Proof. induction a; simpl; [reflexivity | now f_equal]. Qed.

Lemma substring_prefix (u v : string) :
  substring 0 (String.length u) (u +:+ v) = u.
Proof.
  induction u as [|x u IH]; simpl.
  - now destruct v.
  - now rewrite IH.
Qed.

Lemma substring_all (s : string) : substring 0 (String.length s) s = s.
Proof. induction s as [|x s IH]; simpl; [reflexivity | now rewrite IH]. Qed.

Lemma substring_suffix (u v : string) :
  substring (String.length u) (String.length v) (u +:+ v) = v.
Proof.
  induction u as [|x u IH]; simpl.
  - apply substring_all.
  - exact IH.
Qed.

Lemma substr_local (u d : string) (c : ascii) :
  substr (u +:+ String c d) 0 (Some (Z.of_nat (String.length u))) = u.
Proof.
  unfold substr. rewrite length_append. cbn [String.length].
  destruct u as [|x u]; [reflexivity|].
  set (n := String.length (String x u)).
  assert (Hn : (0 < n)%nat) by (subst n; simpl; lia).
  replace (0 <? 0) with false by reflexivity.
  replace (Z.min 0 (Z.of_nat (n + S (String.length d)))) with 0 by lia.
  replace (Z.min (Z.max (Z.of_nat n) 0) (Z.of_nat (n + S (String.length d)) - 0))
    with (Z.of_nat n) by lia.
  destruct (Z.of_nat n <=? 0) eqn:E; [apply Z.leb_le in E; lia|].
  rewrite Nat2Z.id. change (Z.to_nat 0) with 0%nat. subst n.
  apply substring_prefix.
Qed.

Lemma substr_domain (u d : string) (c : ascii) :
  substr (u +:+ String c d) (Z.of_nat (String.length u) + 1) None = d.
Proof.
  unfold substr. rewrite length_append. cbn [String.length].
  set (n := String.length u). set (m := String.length d).
  destruct (Z.of_nat n + 1 <? 0) eqn:E; [apply Z.ltb_lt in E; lia|].
  replace (Z.min (Z.of_nat n + 1) (Z.of_nat (n + S m))) with (Z.of_nat (S n)) by lia.
  replace (Z.of_nat (n + S m) - Z.of_nat (S n)) with (Z.of_nat m) by lia.
  destruct (Z.of_nat m <=? 0) eqn:E'.
  - apply Z.leb_le in E'. destruct d; [reflexivity | subst m; simpl in E'; lia].
  - rewrite !Nat2Z.id. subst n m.
    replace (u +:+ String c d) with ((u +:+ String c "") +:+ d)
      by (rewrite append_assoc; reflexivity).
    replace (S (String.length u)) with (String.length (u +:+ String c ""))
      by (rewrite length_append; simpl; lia).
    apply substring_suffix.
Qed.

(** *** Lower case *)

Lemma lower_char_idem (c : ascii) : lower_char (lower_char c) = lower_char c.
Proof. destruct c as [[] [] [] [] [] [] [] []]; reflexivity. Qed.

Lemma lower_char_plus (c : ascii) :
  Ascii.eqb (lower_char c) "+" = Ascii.eqb c "+".
Proof. destruct c as [[] [] [] [] [] [] [] []]; reflexivity. Qed.

Lemma toLowerCase_fixed (s : string) :
  str_all (fun c => Ascii.eqb (lower_char c) c) s = true -> toLowerCase s = s.
Proof.
  induction s as [|c r IH]; simpl; [reflexivity|].
  intros H. apply andb_true_iff in H as [Hc Hr].
  apply Ascii.eqb_eq in Hc. rewrite Hc, IH by assumption. reflexivity.
Qed.

Lemma toLowerCase_lower (s : string) :
  str_all (fun c => Ascii.eqb (lower_char c) c) (toLowerCase s) = true.
Proof.
  induction s as [|c r IH]; simpl; [reflexivity|].
  now rewrite lower_char_idem, Ascii.eqb_refl, IH.
Qed.

Lemma toLowerCase_no_plus (s : string) :
  str_all (fun c => negb (Ascii.eqb c "+")) s = true ->
  str_all (fun c => negb (Ascii.eqb c "+")) (toLowerCase s) = true.
Proof.
  induction s as [|c r IH]; simpl; [reflexivity|].
  rewrite lower_char_plus, !andb_true_iff. intros [Hc Hr]. auto.
Qed.

(** *** trim *)

Lemma str_all_trimStart (P : ascii -> bool) (s : string) :
  str_all P s = true -> str_all P (trimStart s) = true.
Proof.
  induction s as [|c r IH]; simpl; [reflexivity|].
  intros H. destruct (is_white_space c); [|exact H].
  apply andb_true_iff in H as [_ Hr]. auto.
Qed.

Lemma str_all_trimEnd (P : ascii -> bool) (s : string) :
  str_all P s = true -> str_all P (trimEnd s) = true.
Proof.
  induction s as [|c r IH]; simpl; [reflexivity|].
  intros H. apply andb_true_iff in H as [Hc Hr]. specialize (IH Hr).
  destruct (trimEnd r) as [|y t].
  - destruct (is_white_space c); simpl; [reflexivity | now rewrite Hc].
  - simpl in *. now rewrite Hc.
Qed.

Lemma str_all_trim (P : ascii -> bool) (s : string) :
  str_all P s = true -> str_all P (trim s) = true.
Proof. intros H. now apply str_all_trimEnd, str_all_trimStart. Qed.

Lemma trimEnd_cons (c : ascii) (r : string) :
  trimEnd (String c r) =
  match trimEnd r with
  | "" => if is_white_space c then "" else String c ""
  | r' => String c r'
  end.
Proof. reflexivity. Qed.

Lemma trimEnd_idem (s : string) : trimEnd (trimEnd s) = trimEnd s.
Proof.
  induction s as [|c r IH]; [reflexivity|].
  rewrite trimEnd_cons. destruct (trimEnd r) as [|y t] eqn:E.
  - destruct (is_white_space c) eqn:W; simpl; [reflexivity | now rewrite W].
  - rewrite trimEnd_cons, IH. reflexivity.
Qed.

(** A string that starts with a character that is no white space keeps
    it under [trimEnd]. *)
Lemma trimEnd_head (c : ascii) (r : string) :
  is_white_space c = false -> exists t, trimEnd (String c r) = String c t.
Proof.
  intros W. simpl. destruct (trimEnd r) as [|y t].
  - rewrite W. now exists "".
  - now exists (String y t).
Qed.

Lemma trimStart_head (s : string) :
  trimStart s = "" \/ exists c r, trimStart s = String c r /\ is_white_space c = false.
Proof.
  induction s as [|c r IH]; simpl; [now left|].
  destruct (is_white_space c) eqn:W; [exact IH|].
  right. now exists c, r.
Qed.

Lemma trim_idem (s : string) : trim (trim s) = trim s.
Proof.
  unfold trim. destruct (trimStart_head s) as [E | (c & r & E & W)]; rewrite E.
  - reflexivity.
  - destruct (trimEnd_head c r W) as [t Ht]. rewrite Ht.
    cbn [trimStart]. rewrite W, <- Ht. apply trimEnd_idem.
Qed.

Lemma trimEnd_last (s : string) (c : ascii) :
  is_white_space c = false -> trimEnd (s +:+ String c "") = s +:+ String c "".
Proof.
  intros W. induction s as [|x s IH].
  - simpl. now rewrite W.
  - cbn [String.append trimEnd]. rewrite IH. now destruct s.
Qed.

(** *** The plus tag *)

Lemma replace_plus_tail_no_plus (s : string) :
  no_line_terminator s = true ->
  str_all (fun c => negb (Ascii.eqb c "+")) (replace_plus_tail s) = true.
Proof.
  unfold no_line_terminator.
  induction s as [|c r IH]; simpl; [reflexivity|].
  intros H. apply andb_true_iff in H as [_ Hr].
  fold (no_line_terminator r). unfold no_line_terminator at 1. rewrite Hr.
  destruct (Ascii.eqb c "+") eqn:E; simpl; [reflexivity|].
  rewrite E. simpl. auto.
Qed.

Lemma replace_plus_tail_fixed (s : string) :
  str_all (fun c => negb (Ascii.eqb c "+")) s = true -> replace_plus_tail s = s.
Proof.
  induction s as [|c r IH]; simpl; [reflexivity|].
  intros H. apply andb_true_iff in H as [Hc Hr].
  apply negb_true_iff in Hc. rewrite Hc. simpl. now rewrite IH.
Qed.

End JSFacts.

(** ** The address normalizer *)
Module Normalizer.
Import JS JSFacts.

#[local] Arguments String.append : simpl nomatch.

Section CanonicalForm.

Context {L : Libraries}.

(** Only the address string of the argument matters. *)
Lemma normalized_address_of (a : AddressArg) :
  normalized a =
  match address_of a with
  | Some s => normalized (AddrString s)
  | None => ""
  end.
Proof.
  destruct a as [s | [n [s|] g] |]; reflexivity.
Qed.

(** The canonical string of a non-empty address. *)
Lemma normalized_string (s : string) :
  truthy s = true ->
  normalized (AddrString s) =
  trim (toLowerCase (replace_plus_tail (local_part s))) +:+ "@" +:+ canonical_domain s.
Proof.
  intros H. unfold normalized, normalizeAddress. simpl. rewrite H. reflexivity.
Qed.

(** A tag in front of a line feed, for any Punycode package that leaves the
    domain [d] alone: the tag survives the first pass, because [.] stops at
    the line feed, and [trim] then removes the line feed, so that the second
    pass strips the tag. *)
Lemma plus_tag_behind_line_feed :
  punycode_toUnicode "d" = "d" ->
  let a := AddrString ("a+b" +:+ String LF "" +:+ "@d") in
  normalized a = "a+b@d" /\ normalized (AddrString (normalized a)) = "a@d".
Proof.
  intros H. cbn zeta.
  assert (E : normalized (AddrString ("a+b" +:+ String LF "" +:+ "@d")) = "a+b@d").
  { rewrite normalized_string by reflexivity. unfold canonical_domain.
    replace (trim (toLowerCase (domain_part ("a+b" +:+ String LF "" +:+ "@d"))))
      with "d" by (vm_compute; reflexivity).
    rewrite H. vm_compute. reflexivity. }
  split; [exact E|]. rewrite E.
  rewrite normalized_string by reflexivity. unfold canonical_domain.
  replace (trim (toLowerCase (domain_part "a+b@d"))) with "d"
    by (vm_compute; reflexivity).
  rewrite H. vm_compute. reflexivity.
Qed.

End CanonicalForm.

(** C6: normalizing a normalized address should give the same string.  It
    does not: the tag is cut before the string is trimmed, and the cut stops
    at a line terminator, so a tag followed by a line feed at the end of the
    local part survives the first normalization and is removed by the
    second one. *)
Theorem normalizeAddress_not_idempotent :
  let a := AddrString ("a+b" +:+ String LF "" +:+ "@d") in
  let normalize := normalized (L := Sample.libraries) in
  normalize a = "a+b@d" /\
  normalize (AddrString (normalize a)) = "a@d" /\
  normalize (AddrString (normalize a)) <> normalize a.
Proof.
  cbn zeta. destruct (plus_tag_behind_line_feed (L := Sample.libraries) eq_refl) as [E1 E2].
  cbn zeta in E1, E2. rewrite E2, E1. repeat split. discriminate.
Qed.

End Normalizer.

(** ** The Received header *)
Module Received.
Import JS JSFacts.

#[local] Arguments String.append : simpl nomatch.

Section Origin.

Context {L : Libraries}.

Lemma truthy_ne (s : string) : s <> "" -> truthy s = true.
Proof. destruct s; [congruence | reflexivity]. Qed.

Lemma originhost_resolvable (envelope : Envelope) (h : string) :
  has_host envelope h -> received_originhost envelope = Some h.
Proof.
  intros (E & Hne & Hb & _). unfold received_originhost. rewrite E.
  rewrite (truthy_ne h Hne). simpl.
  destruct (String.eqb (charAt0 h) "[") eqn:B; [|reflexivity].
  apply String.eqb_eq in B. contradiction.
Qed.

Lemma trim_bracketed (ip : string) :
  trim ("[" +:+ ip +:+ "]") = "[" +:+ ip +:+ "]".
Proof.
  unfold trim. change ("[" +:+ ip +:+ "]") with (String "[" ip +:+ String "]" "").
  change (trimStart (String "[" ip +:+ String "]" ""))
    with (String "[" ip +:+ String "]" "").
  now apply trimEnd_last.
Qed.

(** The four shapes of the origin. *)
Lemma origin_both (envelope : Envelope) (ip h : string) :
  has_ip envelope ip -> has_host envelope h ->
  received_origin envelope = "([" +:+ ip +:+ "] " +:+ h +:+ ")".
Proof.
  intros [Ei Hi] Hh. unfold received_origin. cbv zeta.
  rewrite (originhost_resolvable _ _ Hh), Ei. simpl.
  rewrite (truthy_ne ip Hi). simpl. now rewrite !append_assoc.
Qed.

Lemma origin_ip_only (envelope : Envelope) (ip : string) :
  has_ip envelope ip -> no_host envelope ->
  received_origin envelope = "[" +:+ ip +:+ "]".
Proof.
  intros [Ei Hi] Hh. unfold no_host in Hh. unfold received_origin. cbv zeta.
  rewrite Hh, Ei. simpl.
  rewrite (truthy_ne ip Hi). simpl.
  change (String "[" (ip +:+ "]")) with ("[" +:+ ip +:+ "]").
  rewrite trim_bracketed. reflexivity.
Qed.

Lemma origin_host_only (envelope : Envelope) (h : string) :
  no_ip envelope -> has_host envelope h ->
  received_origin envelope = h.
Proof.
  intros Hi Hh. unfold no_ip in Hi. unfold received_origin. cbv zeta.
  rewrite (originhost_resolvable _ _ Hh), Hi. simpl.
  destruct Hh as (_ & Hne & _ & Ht). rewrite Ht.
  now rewrite (truthy_ne h Hne).
Qed.

Lemma origin_neither (envelope : Envelope) :
  no_ip envelope -> no_host envelope ->
  received_origin envelope = "localhost".
Proof.
  intros Hi Hh. unfold no_ip in Hi. unfold no_host in Hh.
  unfold received_origin. cbv zeta. now rewrite Hh, Hi.
Qed.

End Origin.

(** Both sides are the same concatenation once the optional clauses are
    decided. *)
Ltac layout envelope :=
  destruct (truthy_opt (e_transhost envelope)), (truthy_opt (e_user envelope)),
    (e_to envelope) as [|? [|? ?]], (e_tls envelope);
  repeat first [rewrite append_assoc | progress simpl]; reflexivity.

(** C8: the Received header is a function of the envelope and the
    hostname.  With transhost mail.example.com, origin IP 203.0.113.5, no
    resolvable client hostname, no authenticated user, the single
    recipient bob@example.org, transport type ESMTP, id abc123 and no TLS
    it is the four lines of the claim, the last one holding the date with
    GMT replaced by +0000.  For every envelope the header starts with
    [Received: from], the transhost when there is one, and the origin: the
    origin is [(ip hostname)] when the IP literal and a resolvable client
    hostname are both there, the one that is there when only one is, and
    [localhost] when neither is; the rest of the header follows it. *)
Theorem generateReceivedHeader_layout {L : Libraries}
    (envelope : Envelope) (hostname : string) :
  let header := generateReceivedHeader envelope hostname in
  let lead :=
    "Received: from" +:+
    (if truthy_opt (e_transhost envelope)
     then " " +:+ to_str (e_transhost envelope) else "") +:+ " " in
  let sender :=
    if truthy_opt (e_user envelope)
    then " (Authenticated sender: " +:+ to_str (e_user envelope) +:+ ")" +:+ CRLF
    else "" in
  let gap := if truthy_opt (e_user envelope) then sender else CRLF in
  let rest :=
    " by " +:+ hostname +:+
    " with " +:+ to_str (e_transtype envelope) +:+
    " id " +:+ e_id envelope +:+
    (match e_to envelope with
     | [rcpt] => CRLF +:+ " for <" +:+ rcpt +:+ ">"
     | _ => ""
     end) +:+
    (match e_tls envelope with
     | Some tls => CRLF +:+ " (version=" +:+ to_str (tls_version tls) +:+
                   " cipher=" +:+ to_str (tls_name tls) +:+ ")"
     | None => ""
     end) +:+
    ";" +:+ CRLF +:+ " " +:+ replace_GMT "+0000" (toUTCString (e_time envelope)) in
  (e_transhost envelope = Some "mail.example.com" ->
   e_origin envelope = Some "203.0.113.5" ->
   no_host envelope ->
   truthy_opt (e_user envelope) = false ->
   e_to envelope = ["bob@example.org"] ->
   e_transtype envelope = Some "ESMTP" ->
   e_id envelope = "abc123" ->
   e_tls envelope = None ->
   header =
     "Received: from mail.example.com [203.0.113.5]" +:+ CRLF +:+
     " by " +:+ hostname +:+ " with ESMTP id abc123" +:+ CRLF +:+
     " for <bob@example.org>;" +:+ CRLF +:+
     " " +:+ replace_GMT "+0000" (toUTCString (e_time envelope))) /\
  (forall ip h, has_ip envelope ip -> has_host envelope h ->
     header = lead +:+ "([" +:+ ip +:+ "] " +:+ h +:+ ")" +:+ CRLF +:+ sender +:+ rest) /\
  (forall ip, has_ip envelope ip -> no_host envelope ->
     header = lead +:+ "[" +:+ ip +:+ "]" +:+ gap +:+ rest) /\
  (forall h, no_ip envelope -> has_host envelope h ->
     header = lead +:+ h +:+ CRLF +:+ sender +:+ rest) /\
  (no_ip envelope -> no_host envelope ->
     header = lead +:+ "localhost" +:+ gap +:+ rest).
Proof.
  cbv zeta. refine (conj _ (conj _ (conj _ (conj _ _)))).
  - intros Ht Ho Hh Hu Hto Hty Hid Htls.
    unfold generateReceivedHeader.
    rewrite (origin_ip_only envelope "203.0.113.5")
      by first [exact Hh | split; [exact Ho | discriminate]].
    unfold no_host in Hh. cbv zeta. rewrite Hh, Ht, Hu, Hto, Hty, Hid, Htls. simpl.
    rewrite ?append_assoc. reflexivity.
  - intros ip h Hi Hh. unfold generateReceivedHeader. cbv zeta.
    rewrite (origin_both envelope ip h Hi Hh), (originhost_resolvable envelope h Hh).
    layout envelope.
  - intros ip Hi Hh. unfold generateReceivedHeader. cbv zeta.
    rewrite (origin_ip_only envelope ip Hi Hh). unfold no_host in Hh. rewrite Hh.
    layout envelope.
  - intros h Hi Hh. unfold generateReceivedHeader. cbv zeta.
    rewrite (origin_host_only envelope h Hi Hh), (originhost_resolvable envelope h Hh).
    layout envelope.
  - intros Hi Hh. unfold generateReceivedHeader. cbv zeta.
    rewrite (origin_neither envelope Hi Hh). unfold no_host in Hh. rewrite Hh.
    layout envelope.
Qed.

Lemma generateReceivedHeader_layout_witness :
  let L := Sample.libraries in
  let tail := " by mx1 with ESMTP id abc123" +:+ CRLF +:+
              " for <bob@example.org>;" +:+ CRLF +:+
              " Wed, 03 Aug 2016 11:32:07 +0000" in
  generateReceivedHeader (Sample.relayed (Some "203.0.113.5") None) "mx1" =
    "Received: from mail.example.com [203.0.113.5]" +:+ CRLF +:+ tail /\
  generateReceivedHeader
    (Sample.relayed (Some "203.0.113.5") (Some "client.example.net")) "mx1" =
    "Received: from mail.example.com ([203.0.113.5] client.example.net)" +:+ CRLF +:+ tail /\
  generateReceivedHeader
    (Sample.relayed (Some "203.0.113.5") (Some "[203.0.113.5]")) "mx1" =
    "Received: from mail.example.com [203.0.113.5]" +:+ CRLF +:+ tail /\
  generateReceivedHeader (Sample.relayed None (Some "client.example.net")) "mx1" =
    "Received: from mail.example.com client.example.net" +:+ CRLF +:+ tail /\
  generateReceivedHeader (Sample.relayed None None) "mx1" =
    "Received: from mail.example.com localhost" +:+ CRLF +:+ tail.
Proof.
  cbv zeta. refine (conj _ (conj _ (conj _ (conj _ _)))).
  - pose proof (generateReceivedHeader_layout (L := Sample.libraries)
                  (Sample.relayed (Some "203.0.113.5") None) "mx1") as H.
    cbv zeta in H. destruct H as (H & _). apply H; reflexivity.
  - pose proof (generateReceivedHeader_layout (L := Sample.libraries)
                  (Sample.relayed (Some "203.0.113.5") (Some "client.example.net"))
                  "mx1") as H.
    cbv zeta in H. destruct H as (_ & H & _).
    apply (H "203.0.113.5" "client.example.net").
    + split; [reflexivity | discriminate].
    + split; [reflexivity | split; [discriminate | split; [discriminate | reflexivity]]].
  - pose proof (generateReceivedHeader_layout (L := Sample.libraries)
                  (Sample.relayed (Some "203.0.113.5") (Some "[203.0.113.5]"))
                  "mx1") as H.
    cbv zeta in H. destruct H as (_ & _ & H & _).
    apply (H "203.0.113.5").
    + split; [reflexivity | discriminate].
    + reflexivity.
  - pose proof (generateReceivedHeader_layout (L := Sample.libraries)
                  (Sample.relayed None (Some "client.example.net")) "mx1") as H.
    cbv zeta in H. destruct H as (_ & _ & _ & H & _).
    apply (H "client.example.net").
    + reflexivity.
    + split; [reflexivity | split; [discriminate | split; [discriminate | reflexivity]]].
  - pose proof (generateReceivedHeader_layout (L := Sample.libraries)
                  (Sample.relayed None None) "mx1") as H.
    cbv zeta in H. destruct H as (_ & _ & _ & _ & H).
    apply H; reflexivity.
Defined.

End Received.

(** ** Identity resolution *)
Module Identity.

#[local] Arguments String.append : simpl nomatch.

Lemma bind_run {A B} (m : M A) (k : A -> M B) (st st' : State) (a : A) :
  m st = (a, st') -> bind m k st = k a st'.
Proof. unfold bind. now intros ->. Qed.

(** Enter a hook on a covered interface, and run the resolution of the
    identity whose outcome [Hu] gives. *)
Ltac covered Hi := rewrite Hi; cbn [negb]; cbv iota.
Ltac resolved Hu := rewrite (bind_run _ _ _ _ _ Hu).

(** [getUser] touches neither the counter store nor the archive: its only
    call is the lookup of the user. *)
Lemma getUser_trace (w : World) (oid : nat) (user : option string)
    (st st' : State) (r : Error + User) :
  getUser w oid user st = (r, st') ->
  trace st' = trace st \/
  trace st' = (trace st ++ [CallUsersFindOne (JS.to_str user)])%list.
Proof.
  unfold getUser, bind, users_get, users_set, emit, ret.
  destruct (users st !! oid); [intros [= <- <-]; now left|].
  destruct (JS.truthy_opt user); [|intros [= <- <-]; now left].
  destruct (users_findOne w (JS.to_str user)) as [e | [u|]];
    intros [= <- <-]; now right.
Qed.

Lemma getUser_calls (w : World) (oid : nat) (user : option string)
    (st st' : State) (r : Error + User) :
  getUser w oid user st = (r, st') ->
  counter_calls st' = counter_calls st /\ archive_calls st' = archive_calls st.
Proof.
  intros H. unfold counter_calls, archive_calls.
  destruct (getUser_trace _ _ _ _ _ _ H) as [-> | ->]; [easy|].
  rewrite !List.filter_app. simpl. now rewrite !List.app_nil_r.
Qed.

(** The two failures of the resolution. *)
Lemma getUser_insufficient (w : World) (oid : nat) (user : option string)
    (st : State) :
  users st !! oid = None -> JS.truthy_opt user = false ->
  getUser w oid user st = (inl (new_Error "Insufficient user info"), st).
Proof.
  intros Hc Hu. unfold getUser, bind, users_get, ret. now rewrite Hc, Hu.
Qed.

Lemma getUser_not_found (w : World) (oid : nat) (name : string) (st : State) :
  users st !! oid = None -> JS.truthy name = true ->
  users_findOne w name = inr None ->
  fst (getUser w oid (Some name) st) =
  inl (new_Error ("User " +:+ quoted name +:+ " was not found")).
Proof.
  intros Hc Hu Hf. unfold getUser, bind, users_get, emit, ret. simpl.
  now rewrite Hc, Hu, Hf.
Qed.

(** What each hook does with a failed resolution. *)
Lemma rcpt_to_failed_resolution (cfg : Config) (w : World) (address : string)
    (session : Session) (st st' : State) (err : Error) :
  getUser w (s_oid session) (s_user session) st = (inl err, st') ->
  fst (smtp_rcpt_to cfg w address session st) = Next.
Proof.
  intros H. unfold smtp_rcpt_to.
  destruct (checkInterface cfg (s_interface session)); [|reflexivity].
  simpl. unfold bind. now rewrite H.
Qed.

Lemma message_queue_failed_resolution {L : Libraries} (cfg : Config) (w : World)
    (envelope : Envelope) (st st' : State) (err : Error) :
  checkInterface cfg (e_interface envelope) = true ->
  getUser w (e_oid envelope) (e_user envelope) st = (inl err, st') ->
  message_queue cfg w envelope st = (NextErr err, st').
Proof.
  intros Hi H. unfold message_queue. covered Hi. now resolved H.
Qed.

Lemma message_headers_failed_resolution {L : Libraries} (cfg : Config) (w : World)
    (envelope : Envelope) (st st' : State) (err : Error) :
  checkInterface cfg (e_interface envelope) = true ->
  getUser w (e_oid envelope) (e_user envelope) st = (inl err, st') ->
  message_headers cfg w envelope st = ((envelope, NextErr err), st').
Proof.
  intros Hi H. unfold message_headers. covered Hi. cbv zeta. now resolved H.
Qed.

(** C1: a hook whose identity resolution fails passes the error on.  The
    recipient gate does not: for a session without an authenticated user,
    and for one whose user the store does not know, it calls [next]
    without an error, while the two envelope hooks fail with the error of
    the resolution. *)
Theorem rcpt_to_allows_unresolved_identity :
  let L := Sample.libraries in
  let anonymous := mkSession 1 "feeder" None "203.0.113.5" "e1" in
  let unknown := mkSession 1 "feeder" (Some "mallory") "203.0.113.5" "e1" in
  let envelope := Sample.relayed (Some "203.0.113.5") None in
  fst (getUser Sample.world 1 None Sample.start) =
    inl (new_Error "Insufficient user info") /\
  fst (smtp_rcpt_to Sample.config Sample.world "bob@example.org" anonymous Sample.start)
    = Next /\
  fst (getUser Sample.world 1 (Some "mallory") Sample.start) =
    inl (new_Error ("User " +:+ quoted "mallory" +:+ " was not found")) /\
  fst (smtp_rcpt_to Sample.config Sample.world "bob@example.org" unknown Sample.start)
    = Next /\
  fst (message_queue Sample.config Sample.world envelope Sample.start) =
    NextErr (new_Error "Insufficient user info") /\
  snd (fst (message_headers Sample.config Sample.world envelope Sample.start)) =
    NextErr (new_Error "Insufficient user info").
Proof. cbn zeta. repeat split. Qed.

End Identity.

(** ** The recipient rate gate *)
Module RateGate.
Import Identity.

#[local] Arguments String.append : simpl nomatch.

Lemma round_div_nearest (n d : Z) :
  0 < d -> let m := JS.round_div n d in 2 * d * m - d <= 2 * n < 2 * d * m + d.
Proof.
  intros Hd. cbn zeta. unfold JS.round_div.
  pose proof (Z.div_mod (2 * n + d) (2 * d) ltac:(lia)) as E.
  pose proof (Z.mod_pos_bound (2 * n + d) (2 * d) ltac:(lia)) as B.
  lia.
Qed.

(** The reply of a denial. *)
Lemma limit_error_shape (ttl : Z) :
  err_responseCode (limit_error ttl) = Some 550 /\
  (ttl = 0 -> err_message (limit_error ttl) = limit_reached) /\
  (ttl <> 0 -> ttl < 60 ->
     err_message (limit_error ttl) =
     limit_reached +:+ ". Limit expires in " +:+ JS.num_to_str ttl +:+ " seconds") /\
  (60 <= ttl < 3600 ->
     exists m, 60 * m - 30 <= ttl < 60 * m + 30 /\
       err_message (limit_error ttl) =
       limit_reached +:+ ". Limit expires in " +:+ JS.num_to_str m +:+ " minutes") /\
  (3600 <= ttl ->
     exists h, 3600 * h - 1800 <= ttl < 3600 * h + 1800 /\
       err_message (limit_error ttl) =
       limit_reached +:+ ". Limit expires in " +:+ JS.num_to_str h +:+ " hours").
Proof.
  unfold limit_error, ttlHuman, limit_reached. simpl.
  split; [reflexivity|]. split; [|split; [|split]].
  - intros ->. reflexivity.
  - intros H0 H. apply Z.eqb_neq in H0. apply Z.ltb_lt in H. now rewrite H0, H.
  - intros [H1 H2]. exists (JS.round_div ttl 60). split.
    + pose proof (round_div_nearest ttl 60 ltac:(lia)). cbn zeta in *. lia.
    + replace (ttl =? 0) with false by (symmetry; apply Z.eqb_neq; lia).
      replace (ttl <? 60) with false by (symmetry; apply Z.ltb_ge; lia).
      replace (ttl <? 3600) with true by (symmetry; apply Z.ltb_lt; lia).
      reflexivity.
  - intros H1. exists (JS.round_div ttl 3600). split.
    + pose proof (round_div_nearest ttl 3600 ltac:(lia)). cbn zeta in *. lia.
    + replace (ttl =? 0) with false by (symmetry; apply Z.eqb_neq; lia).
      replace (ttl <? 60) with false by (symmetry; apply Z.ltb_ge; lia).
      replace (ttl <? 3600) with false by (symmetry; apply Z.ltb_ge; lia).
      reflexivity.
Qed.

(** C3: in the recipient gate, an identity without a recipient cap is
    allowed and the counter store is not called.  With a cap the counter of
    the identity is incremented by 1 against the cap; when the counter
    store reports that the cap is exceeded the hook fails with
    responseCode 550 and a message that ends with the remaining time: in
    seconds below 60, in rounded minutes below 3600, in rounded hours from
    there on, and with no such clause when the ttl is 0. *)
Theorem rcpt_to_rate_gate (cfg : Config) (w : World) (address : string)
    (session : Session) (st st1 : State) (user : User) :
  checkInterface cfg (s_interface session) = true ->
  getUser w (s_oid session) (s_user session) st = (inr user, st1) ->
  let res := fst (smtp_rcpt_to cfg w address session st) in
  let st2 := snd (smtp_rcpt_to cfg w address session st) in
  (JS.truthy_num (u_recipients user) = false ->
     res = Next /\ counter_calls st2 = counter_calls st) /\
  (forall cap, u_recipients user = Some cap -> cap <> 0 ->
     counter_calls st2 =
       (counter_calls st ++ [CallTtlCounter ("wdr:" +:+ u_id user) 1 cap])%list /\
     forall result, ttlcounter w ("wdr:" +:+ u_id user) 1 cap = inr result ->
       (cr_success result = true -> res = Next) /\
       (cr_success result = false ->
          let ttl := cr_ttl result in
          exists msg, res = NextErr (mkError msg (Some 550) "SMTPResponse") /\
            (ttl = 0 -> msg = limit_reached) /\
            (ttl <> 0 -> ttl < 60 ->
               msg = limit_reached +:+ ". Limit expires in " +:+
                     JS.num_to_str ttl +:+ " seconds") /\
            (60 <= ttl < 3600 ->
               exists m, 60 * m - 30 <= ttl < 60 * m + 30 /\
                 msg = limit_reached +:+ ". Limit expires in " +:+
                       JS.num_to_str m +:+ " minutes") /\
            (3600 <= ttl ->
               exists h, 3600 * h - 1800 <= ttl < 3600 * h + 1800 /\
                 msg = limit_reached +:+ ". Limit expires in " +:+
                       JS.num_to_str h +:+ " hours"))).
Proof.
  intros Hi Hu. cbn zeta. destruct (getUser_calls _ _ _ _ _ _ Hu) as [Hc _].
  unfold smtp_rcpt_to. covered Hi. resolved Hu.
  split.
  - intros ->. simpl. easy.
  - intros cap Hcap Hne. rewrite Hcap.
    replace (JS.truthy_num (Some cap)) with true
      by (simpl; apply Z.eqb_neq in Hne; now rewrite Hne).
    simpl. unfold bind, emit, ret.
    split.
    + destruct (ttlcounter w _ 1 cap) as [e | r]; [|destruct (cr_success r)];
        unfold counter_calls in *; simpl; rewrite ?List.filter_app, Hc; simpl;
        now rewrite ?List.app_nil_r.
    + intros result ->. split; intros Hs; rewrite Hs; simpl; [reflexivity|].
      exists (err_message (limit_error (cr_ttl result))).
      split; [reflexivity|]. apply limit_error_shape.
Qed.

Lemma rcpt_to_rate_gate_witness :
  let run := smtp_rcpt_to Sample.config Sample.world "bob@example.org"
               Sample.session Sample.start in
  fst run = NextErr (mkError (limit_reached +:+ ". Limit expires in 2 minutes")
                       (Some 550) "SMTPResponse") /\
  counter_calls (snd run) = [CallTtlCounter "wdr:59a0" 1 100].
Proof.
  cbn zeta.
  destruct (rcpt_to_rate_gate Sample.config Sample.world "bob@example.org"
              Sample.session Sample.start
              (mkState {[1%nat := Sample.alice]} [CallUsersFindOne "alice"])
              Sample.alice eq_refl eq_refl) as [_ H].
  destruct (H 100 eq_refl ltac:(discriminate)) as [Hc Hr].
  split; [|exact Hc].
  destruct (Hr _ eq_refl) as [_ Hd].
  destruct (Hd eq_refl) as (msg & E & _ & _ & Hm & _).
  destruct (Hm ltac:(simpl; lia)) as (m & Hb & Em).
  simpl in Hb. assert (m = 2) as -> by lia.
  now rewrite E, Em.
Defined.

End RateGate.

(** ** Archival on enqueue *)
Module Archive.
Import Identity.

#[local] Arguments String.append : simpl nomatch.

(** C4 (amended): when the resolved user has a quota that is set and not
    zero, and the storage used exceeds it, the message:queue hook reads no
    body and submits nothing to the archive, and it completes without an
    error. *)
Theorem message_queue_over_quota {L : Libraries} (cfg : Config) (w : World)
    (envelope : Envelope) (st st1 : State) (user : User) (quota used : Z) :
  getUser w (e_oid envelope) (e_user envelope) st = (inr user, st1) ->
  u_quota user = Some quota -> quota <> 0 ->
  u_storageUsed user = Some used -> quota < used ->
  fst (message_queue cfg w envelope st) = Next /\
  archive_calls (snd (message_queue cfg w envelope st)) = archive_calls st.
Proof.
  intros Hu Hq Hne Hs Hlt. unfold message_queue.
  destruct (checkInterface cfg (e_interface envelope)); cbn [negb]; cbv iota;
    [|easy].
  resolved Hu. rewrite Hq, Hs.
  apply Z.eqb_neq in Hne. apply Z.ltb_lt in Hlt.
  unfold JS.truthy_num, num_gt. rewrite Hne, Hlt. simpl.
  split; [reflexivity|].
  destruct (getUser_calls _ _ _ _ _ _ Hu) as [_ Ha].
  unfold archive_calls in *. simpl. rewrite List.filter_app, Ha. simpl.
  now rewrite List.app_nil_r.
Qed.

Lemma message_queue_over_quota_witness :
  let L := Sample.libraries in
  let full := mkUser "59a0" "alice" "alice@example.com" (Some 1000) (Some 1001) None in
  let run := message_queue Sample.config (Sample.world_of full)
               (Sample.envelope "alice@example.com" []) Sample.start in
  fst run = Next /\ archive_calls (snd run) = [].
Proof.
  intros L full. cbn zeta.
  apply (message_queue_over_quota Sample.config (Sample.world_of full)
           (Sample.envelope "alice@example.com" []) Sample.start
           (mkState {[2%nat := full]} [CallUsersFindOne "alice"])
           full 1000 1001); try reflexivity; lia.
Defined.

(** C4 as stated fails: a quota of 0 is no quota, so a user with quota 0
    and one byte stored has [storageUsed > quota] and the message is read
    and archived all the same. *)
Lemma message_queue_archives_without_quota :
  let L := Sample.libraries in
  let user := mkUser "59a0" "alice" "alice@example.com" (Some 0) (Some 1) None in
  let envelope := Sample.envelope "alice@example.com" [] in
  let run := message_queue Sample.config (Sample.world_of user) envelope Sample.start in
  fst (getUser (Sample.world_of user) (e_oid envelope) (e_user envelope) Sample.start)
    = inr user /\
  num_gt (u_storageUsed user) (u_quota user) = true /\
  fst run = Next /\
  exists message,
    archive_calls (snd run) = [CallReadStream "message abc123"; CallArchiveAdd message] /\
    archive_calls (snd run) <> archive_calls Sample.start.
Proof.
  cbn zeta. split; [reflexivity|]. split; [reflexivity|]. split; [reflexivity|].
  eexists. split; [reflexivity | discriminate].
Qed.

End Archive.

(** ** Sender identity in the envelope and in the From: header *)
Module SenderIdentity.
Import Identity.

#[local] Arguments String.append : simpl nomatch.

(** C2: when the first address of the From: header is not one of the
    user's addresses, the hook leaves the From: header holding the
    envelope sender, the envelope sender being corrected first when it is
    not one of the user's addresses either, and keeps the original From:
    value under X-WildDuck-Original-From.  The From: header is written from
    the address object that was parsed, its name kept and its address being
    the sender; the two updates are the only change to the headers, and
    what is read back afterwards follows from the laws of the header
    collection. *)
Theorem message_headers_rewrites_from {L : Libraries} {HL : HeadersLaws L}
    (cfg : Config) (w : World) (envelope : Envelope) (st st1 : State)
    (user : User) (obj : AddressObject) (owned : option AddressData) :
  checkInterface cfg (e_interface envelope) = true ->
  getUser w (e_oid envelope) (e_user envelope) st = (inr user, st1) ->
  let headerFrom := headers_getFirst (e_headers envelope) "from" in
  first_from_object headerFrom = Some obj ->
  addresses_findOne w
    (mkAddressQuery (normalized (AddrString (e_from envelope))) (Some (u_id user)))
    = inr owned ->
  addresses_findOne w
    (mkAddressQuery (normalized (arg_of_opt (ao_address obj))) (Some (u_id user)))
    = inr None ->
  let sender := match owned with
                | Some _ => e_from envelope
                | None => u_address user
                end in
  let written := mkAddressObject (ao_name obj) (Some sender) (ao_group obj) in
  let out := fst (fst (message_headers cfg w envelope st)) in
  snd (fst (message_headers cfg w envelope st)) = Next /\
  e_from out = sender /\
  e_headers out =
    headers_update
      (headers_update (e_headers envelope) "From" (convertAddresses [written]))
      "X-WildDuck-Original-From" headerFrom /\
  headers_getFirst (e_headers out) "from" = convertAddresses [written] /\
  headers_getFirst (e_headers out) "X-WildDuck-Original-From" = headerFrom.
Proof.
  intros Hi Hu headerFrom Hobj Hown Hfrom sender written out. subst out written.
  unfold message_headers. covered Hi. cbv zeta. resolved Hu.
  fold headerFrom. rewrite Hobj.
  unfold bind, emit, ret. rewrite Hown.
  assert (Hlaws : forall h v,
    headers_getFirst
      (headers_update (headers_update h "From" v) "X-WildDuck-Original-From" headerFrom)
      "from" = v /\
    headers_getFirst
      (headers_update (headers_update h "From" v) "X-WildDuck-Original-From" headerFrom)
      "X-WildDuck-Original-From" = headerFrom).
  { intros h v. split.
    - rewrite getFirst_update_other by reflexivity.
      now rewrite getFirst_update_same by reflexivity.
    - now rewrite getFirst_update_same by reflexivity. }
  destruct owned as [a|]; subst sender; simpl; rewrite Hfrom; simpl;
    (split; [reflexivity | split; [reflexivity | split; [reflexivity | apply Hlaws]]]).
Qed.

(** The header collection of the sample installation keeps its laws. *)
Lemma sample_find_filter (k1 k2 : string) (h : Sample.lines) :
  same_key k1 k2 = false ->
  List.find (fun l => same_key k1 (fst l))
    (List.filter (fun l => negb (same_key k2 (fst l))) h) =
  List.find (fun l => same_key k1 (fst l)) h.
Proof.
  intros Hk. induction h as [|[k v] h IH]; simpl; [reflexivity|].
  destruct (same_key k2 k) eqn:E2; simpl.
  - destruct (same_key k1 k) eqn:E1; [|exact IH].
    unfold same_key in *. apply String.eqb_eq in E1, E2.
    rewrite E1, <- E2, String.eqb_refl in Hk. discriminate.
  - now rewrite IH.
Qed.

#[export] Instance sample_laws : HeadersLaws Sample.libraries.
Proof.
  split; intros h k1 k2 v Hk; simpl; unfold Sample.getFirst, Sample.update; simpl.
  - now rewrite Hk.
  - rewrite Hk. now rewrite sample_find_filter.
Qed.

Lemma message_headers_rewrites_from_witness :
  let L := Sample.libraries in
  let envelope :=
    Sample.envelope "mallory@example.com" [("From", "eve@example.com")] in
  let out := fst (fst (message_headers Sample.config Sample.world envelope Sample.start)) in
  e_from out = "alice@example.com" /\
  headers_getFirst (e_headers out) "from" = "alice@example.com" /\
  headers_getFirst (e_headers out) "X-WildDuck-Original-From" = "eve@example.com".
Proof.
  intros L envelope. cbn zeta.
  destruct (message_headers_rewrites_from (HL := sample_laws) Sample.config
              Sample.world envelope Sample.start
              (mkState {[2%nat := Sample.alice]} [CallUsersFindOne "alice"])
              Sample.alice (mkAddressObject None (Some "eve@example.com") false) None
              eq_refl eq_refl eq_refl eq_refl eq_refl) as (_ & H1 & _ & H2 & H3).
  split; [exact H1 | split; [exact H2 | exact H3]].
Defined.

End SenderIdentity.

(** ** Authentication *)
Module Authentication.
Import Identity.

#[local] Arguments String.append : simpl nomatch.

Lemma refused_dec (result : option AuthResult) :
  refused result <->
  match result with
  | Some r => String.eqb (ar_scope r) "master" && ar_enabled2fa r = true
  | None => True
  end.
Proof.
  unfold refused. destruct result as [r|]; split.
  - intros [? | (r' & [= <-] & Hs & H2)]; [discriminate|].
    now rewrite Hs, H2.
  - intros H. apply andb_true_iff in H as [Hs H2]. apply String.eqb_eq in Hs.
    right. now exists r.
  - easy.
  - now left.
Qed.

(** C7: on an interface the plugin covers, the authentication hook fails
    with responseCode 535 exactly when the identity store hands back no
    result (which is how a failed verification shows) or an account of
    scope master with two-factor authentication enabled; otherwise it
    succeeds and the username of the session becomes the one of the
    store.  An error of the store itself is passed on as it is. *)
Theorem smtp_auth_denies (cfg : Config) (w : World) (auth : Auth)
    (session : Session) (st : State) :
  checkInterface cfg (s_interface session) = true ->
  let answer := authenticate w (auth_username auth) (auth_password auth)
                  (s_remoteAddress session) in
  let out := fst (smtp_auth cfg w auth session st) in
  (forall err, answer = inl err -> out = (auth, NextErr err)) /\
  (forall result, answer = inr result ->
     (out = (auth, NextErr authentication_failed) <-> refused result) /\
     (err_responseCode authentication_failed = Some 535) /\
     (~ refused result ->
        exists r, result = Some r /\
          out = (mkAuth (ar_username r) (auth_password auth), Next))).
Proof.
  intros Hi answer out. subst out. unfold smtp_auth. covered Hi.
  unfold bind, emit, ret. fold answer.
  split.
  - intros err ->. reflexivity.
  - intros result ->. rewrite refused_dec. unfold authentication_failed.
    destruct result as [r|]; simpl.
    + destruct (String.eqb (ar_scope r) "master" && ar_enabled2fa r); simpl.
      * split; [easy|]. split; [reflexivity|]. intros H. now destruct H.
      * split; [split; [intros [=] | discriminate]|]. split; [reflexivity|].
        intros _. now exists r.
    + split; [easy|]. split; [reflexivity|]. intros H. now destruct H.
Qed.

Lemma smtp_auth_denies_witness :
  let run (u p : string) :=
    fst (smtp_auth Sample.config Sample.world (mkAuth u p) Sample.session Sample.start) in
  run "alice" "wrong" = (mkAuth "alice" "wrong", NextErr authentication_failed) /\
  run "alice" "pass" = (mkAuth "alice" "pass", Next).
Proof.
  cbn zeta. split.
  - destruct (smtp_auth_denies Sample.config Sample.world (mkAuth "alice" "wrong")
                Sample.session Sample.start eq_refl) as [_ H].
    destruct (H None eq_refl) as [[_ Hd] _]. apply Hd. now left.
  - destruct (smtp_auth_denies Sample.config Sample.world (mkAuth "alice" "pass")
                Sample.session Sample.start eq_refl) as [_ H].
    destruct (H (Some (mkAuthResult "alice" "user" false)) eq_refl) as (_ & _ & Hs).
    destruct Hs as (r & [= <-] & E); [|exact E].
    intros [? | (r & [= <-] & ? & ?)]; discriminate.
Defined.

End Authentication.

(** ** Deliveries *)
Module Deliveries.

#[local] Arguments String.append : simpl nomatch.

(** C9: the routing hook is there when an MX override is configured.  When
    the canonical recipient address is in the address directory, the
    delivery gets the configured MX hosts and MX port, LMTP and the
    configured zone address, its other fields staying as they are; when it
    is not in the directory, the delivery is left as it is. *)
Theorem sender_fetch_routes_local {L : Libraries} (cfg : Config) (w : World)
    (delivery : Delivery) (st : State) (hosts : StringOrList) :
  cfg_mx cfg = Some hosts -> truthy_sl (Some hosts) = true ->
  let found := addresses_findOne w
                 (mkAddressQuery (normalized (AddrString (d_to delivery))) None) in
  let out := fst (sender_fetch cfg w delivery st) in
  sender_fetch_hook cfg w = Some (sender_fetch cfg w) /\
  (forall data, found = inr (Some data) ->
     out = (mkDelivery (d_id delivery) (d_seq delivery) (d_interface delivery)
              (d_from delivery) (d_to delivery) (d_headers delivery)
              (Some (concat_into_array hosts)) (cfg_mxPort cfg) true
              (cfg_zoneAddress cfg), Next)) /\
  (found = inr None -> out = (delivery, Next)).
Proof.
  intros Hmx Ht found out. subst out. unfold sender_fetch_hook, sender_fetch.
  rewrite Hmx, Ht. unfold bind, emit, ret. fold found.
  split; [reflexivity|]. split.
  - intros data ->. unfold set_route. now rewrite Hmx, Ht.
  - intros ->. reflexivity.
Qed.

Lemma sender_fetch_routes_local_witness :
  let L := Sample.libraries in
  let run (to : string) :=
    fst (sender_fetch Sample.config Sample.world
           (Sample.delivery None (Some "x@y.com") to) Sample.start) in
  run "Alice+news@Example.com" =
    (Sample.routed None (Some "x@y.com") "Alice+news@Example.com", Next) /\
  run "bob@example.org" = (Sample.delivery None (Some "x@y.com") "bob@example.org", Next).
Proof.
  intros L. cbn zeta. split.
  - destruct (sender_fetch_routes_local Sample.config Sample.world
                (Sample.delivery None (Some "x@y.com") "Alice+news@Example.com")
                Sample.start (Many ["lmtp.example.com"]) eq_refl eq_refl)
      as (_ & H & _).
    exact (H (mkAddressData "alice@example.com" "59a0") eq_refl).
  - destruct (sender_fetch_routes_local Sample.config Sample.world
                (Sample.delivery None (Some "x@y.com") "bob@example.org")
                Sample.start (Many ["lmtp.example.com"]) eq_refl eq_refl)
      as (_ & _ & H).
    exact (H eq_refl).
Defined.

(** C10: a delivery whose envelope sender is empty or missing goes through
    the sender:headers hook as it is, on the forwarder interface too: no
    header is added, the sender is not rewritten and nothing is logged. *)
Theorem sender_headers_empty_sender {L : Libraries} (cfg : Config)
    (delivery : Delivery) (st : State) :
  d_from delivery = None \/ d_from delivery = Some "" ->
  sender_headers cfg delivery st = ((delivery, Next), st).
Proof.
  intros H. unfold sender_headers.
  replace (JS.truthy_opt (d_from delivery)) with false
    by (destruct H as [-> | ->]; reflexivity).
  reflexivity.
Qed.

Lemma sender_headers_empty_sender_witness :
  let L := Sample.libraries in
  let bounce := Sample.delivery (Some "forwarder") (Some "") "bob@example.org" in
  d_interface bounce = cfg_forwarder Sample.config /\
  sender_headers Sample.config bounce Sample.start = ((bounce, Next), Sample.start).
Proof.
  intros L bounce. split; [reflexivity|].
  apply (sender_headers_empty_sender Sample.config bounce Sample.start).
  now right.
Defined.

End Deliveries.

(** * Further properties of the plugin *)

(** ** The interface allow-list *)
Module Interfaces.

#[local] Arguments String.append : simpl nomatch.

Lemma includes_In (l : list string) (x : string) :
  JS.includes l x = true <-> In x l.
Proof.
  unfold JS.includes. rewrite List.existsb_exists. split.
  - intros (y & Hy & E). apply String.eqb_eq in E. now subst.
  - intros H. exists x. split; [exact H | apply String.eqb_refl].
Qed.

Lemma checkInterface_In (cfg : Config) (iface : string) :
  checkInterface cfg iface = true <->
  In "*" (interfaces cfg) \/ In iface (interfaces cfg).
Proof.
  unfold checkInterface, allInterfaces. rewrite <- !includes_In.
  destruct (JS.includes (interfaces cfg) "*"), (JS.includes (interfaces cfg) iface);
    simpl; intuition congruence.
Qed.

(** X1: which interfaces the plugin covers.  With [interfaces] unset or an
    empty string every interface is covered; with an array, the interfaces
    in it, or all of them when it holds a star, so that an empty array
    covers none; with a single name, that interface, or all for a star. *)
Theorem checkInterface_covers (cfg : Config) (iface : string) :
  (truthy_sl (cfg_interfaces cfg) = false -> checkInterface cfg iface = true) /\
  (forall l, cfg_interfaces cfg = Some (Many l) ->
     (checkInterface cfg iface = true <-> In "*" l \/ In iface l)) /\
  (forall s, cfg_interfaces cfg = Some (One s) -> s <> "" ->
     (checkInterface cfg iface = true <-> s = "*" \/ s = iface)).
Proof.
  split; [|split].
  - intros H. apply checkInterface_In. left. unfold interfaces.
    destruct (cfg_interfaces cfg) as [v|]; [rewrite H|]; now left.
  - intros l E. rewrite checkInterface_In. unfold interfaces. now rewrite E.
  - intros s E Hs. rewrite checkInterface_In. unfold interfaces. rewrite E.
    destruct s; [congruence|]. simpl. intuition congruence.
Qed.

Lemma checkInterface_covers_witness :
  checkInterface Sample.config "any" = true /\
  (checkInterface Sample.restricted "feeder" = true <->
     In "*" ["feeder"] \/ In "feeder" ["feeder"]) /\
  (checkInterface (mkConfig (Some (One "mx")) "" None None None None None None) "mx" = true
     <-> "mx" = "*" \/ "mx" = "mx").
Proof.
  refine (conj _ (conj _ _)).
  - apply (checkInterface_covers Sample.config "any"). reflexivity.
  - apply (checkInterface_covers Sample.restricted "feeder"). reflexivity.
  - apply (checkInterface_covers
             (mkConfig (Some (One "mx")) "" None None None None None None) "mx" ).
    + reflexivity.
    + discriminate.
Defined.

(** X2: on an interface that is not covered, the four submission hooks
    call [next] at once: no store is called, the cache, the credentials and
    the envelope stay as they are. *)
Theorem uncovered_interface_passes {L : Libraries} (cfg : Config) (w : World)
    (auth : Auth) (session : Session) (address : string) (envelope : Envelope)
    (st : State) :
  checkInterface cfg (s_interface session) = false ->
  checkInterface cfg (e_interface envelope) = false ->
  smtp_auth cfg w auth session st = ((auth, Next), st) /\
  smtp_rcpt_to cfg w address session st = (Next, st) /\
  message_headers cfg w envelope st = ((envelope, Next), st) /\
  message_queue cfg w envelope st = (Next, st).
Proof.
  intros Hs He.
  unfold smtp_auth, smtp_rcpt_to, message_headers, message_queue.
  now rewrite Hs, He.
Qed.

Lemma uncovered_interface_passes_witness :
  let L := Sample.libraries in
  let session := mkSession 1 "mx" (Some "alice") "203.0.113.5" "e1" in
  let envelope :=
    mkEnvelope 2 "abc123" "mx" "mallory@example.com" ["bob@example.org"] (Some "alice")
      None None None None None None None None None None
      ([("From", "eve@example.com")] : Sample.lines) in
  smtp_auth Sample.restricted Sample.world (mkAuth "alice" "wrong") session Sample.start
    = ((mkAuth "alice" "wrong", Next), Sample.start) /\
  smtp_rcpt_to Sample.restricted Sample.world "bob@example.org" session Sample.start
    = (Next, Sample.start) /\
  message_headers Sample.restricted Sample.world envelope Sample.start
    = ((envelope, Next), Sample.start) /\
  message_queue Sample.restricted Sample.world envelope Sample.start
    = (Next, Sample.start).
Proof.
  intros L session envelope.
  apply (uncovered_interface_passes Sample.restricted Sample.world
           (mkAuth "alice" "wrong") session "bob@example.org" envelope Sample.start);
    reflexivity.
Defined.

End Interfaces.

(** ** The cache of resolved identities *)
Module Cache.
Import Identity.

#[local] Arguments String.append : simpl nomatch.

Lemma getUser_success_cached (w : World) (oid : nat) (user : option string)
    (st st1 : State) (u : User) :
  getUser w oid user st = (inr u, st1) -> users st1 !! oid = Some u.
Proof.
  unfold getUser, bind, users_get, users_set, emit, ret.
  destruct (users st !! oid) as [c|] eqn:E; [intros [= <- <-]; exact E|].
  destruct (JS.truthy_opt user); [|discriminate].
  destruct (users_findOne w (JS.to_str user)) as [e | [u'|]]; try discriminate.
  intros [= <- <-]. simpl. apply lookup_insert_eq.
Qed.

Lemma getUser_hit (w : World) (oid : nat) (user : option string) (st : State)
    (u : User) :
  users st !! oid = Some u -> getUser w oid user st = (inr u, st).
Proof. intros E. unfold getUser, bind, users_get, ret. now rewrite E. Qed.

(** X3: a resolved identity is a snapshot.  Once [getUser] has succeeded
    for an envelope, every later resolution for the same envelope returns
    the same user without a call to the store, whatever the store holds by
    then and whatever the [user] field of the envelope has become. *)
Theorem getUser_snapshot (w w' : World) (oid : nat) (user user' : option string)
    (st st1 : State) (u : User) :
  getUser w oid user st = (inr u, st1) ->
  getUser w' oid user' st1 = (inr u, st1).
Proof. intros H. apply getUser_hit. exact (getUser_success_cached _ _ _ _ _ _ H). Qed.

Lemma getUser_snapshot_witness :
  let renamed := mkUser "59a0" "alice" "other@example.com" None None None in
  let st1 := snd (getUser Sample.world 2 (Some "alice") Sample.start) in
  getUser (Sample.world_of renamed) 2 None st1 = (inr Sample.alice, st1).
Proof.
  cbn zeta.
  apply (getUser_snapshot Sample.world _ 2 (Some "alice") None Sample.start).
  reflexivity.
Defined.

(** X4: what a resolution does to the cache.  The entries of other
    envelopes are never touched; a failed resolution caches nothing, so the
    next one asks the store again; a successful one leaves the user under
    the envelope. *)
Theorem getUser_cache_frame (w : World) (oid : nat) (user : option string)
    (st st1 : State) (r : Error + User) :
  getUser w oid user st = (r, st1) ->
  (forall oid', oid' <> oid -> users st1 !! oid' = users st !! oid') /\
  (forall err, r = inl err -> users st1 = users st) /\
  (forall u, r = inr u -> users st1 !! oid = Some u).
Proof.
  intros H. split; [|split].
  - revert H. unfold getUser, bind, users_get, users_set, emit, ret.
    destruct (users st !! oid); [now intros [= <- <-]|].
    destruct (JS.truthy_opt user); [|now intros [= <- <-]].
    destruct (users_findOne w (JS.to_str user)) as [e | [u'|]];
      intros [= <- <-] oid' Hne; simpl; try reflexivity.
    now apply lookup_insert_ne.
  - revert H. unfold getUser, bind, users_get, users_set, emit, ret.
    destruct (users st !! oid); [now intros [= <- <-]|].
    destruct (JS.truthy_opt user); [|now intros [= <- <-]].
    destruct (users_findOne w (JS.to_str user)) as [e | [u'|]];
      intros [= <- <-] err; try discriminate; reflexivity.
  - intros u ->. exact (getUser_success_cached _ _ _ _ _ _ H).
Qed.

Lemma getUser_cache_frame_witness :
  let after (name : string) := snd (getUser Sample.world 2 (Some name) Sample.start) in
  users (after "mallory") = users Sample.start /\
  users (after "alice") !! 2%nat = Some Sample.alice /\
  users (after "alice") !! 1%nat = users Sample.start !! 1%nat.
Proof.
  cbn zeta. refine (conj _ (conj _ _)).
  - destruct (getUser_cache_frame Sample.world 2 (Some "mallory") Sample.start _ _ eq_refl)
      as (_ & H & _).
    exact (H _ eq_refl).
  - destruct (getUser_cache_frame Sample.world 2 (Some "alice") Sample.start _ _ eq_refl)
      as (_ & _ & H).
    exact (H _ eq_refl).
  - destruct (getUser_cache_frame Sample.world 2 (Some "alice") Sample.start _ _ eq_refl)
      as (H & _).
    apply H. discriminate.
Defined.

End Cache.

(** ** One identity per message *)
Module Reuse.
Import Identity Cache.

#[local] Arguments String.append : simpl nomatch.

Lemma filter_snoc {A} (P : A -> bool) (l : list A) (x : A) :
  List.filter P (l ++ [x]) = (List.filter P l ++ if P x then [x] else [])%list.
Proof. rewrite List.filter_app. simpl. now destruct (P x). Qed.

(** The state a hook leaves after its resolution: the cache of the
    resolution, and more events. *)
Lemma message_headers_users {L : Libraries} (cfg : Config) (w : World)
    (envelope : Envelope) (st : State) :
  checkInterface cfg (e_interface envelope) = true ->
  users (snd (message_headers cfg w envelope st)) =
  users (snd (getUser w (e_oid envelope) (e_user envelope) st)) /\
  e_oid (fst (fst (message_headers cfg w envelope st))) = e_oid envelope.
Proof.
  intros Hi. unfold message_headers. covered Hi. cbv zeta.
  destruct (getUser w (e_oid envelope) (e_user envelope) st) as [r st0] eqn:Hu.
  resolved Hu. destruct r as [err | user]; [easy|].
  unfold bind, emit, ret.
  destruct (addresses_findOne w _) as [err | [a|]]; [easy| |];
    (destruct (first_from_object _) as [o|]; [|easy]);
    simpl; destruct (addresses_findOne w _) as [err | [a'|]]; easy.
Qed.

Lemma message_headers_resolves {L : Libraries} (cfg : Config) (w : World)
    (envelope out : Envelope) (st st1 : State) :
  checkInterface cfg (e_interface envelope) = true ->
  message_headers cfg w envelope st = ((out, Next), st1) ->
  exists user, users st1 !! e_oid out = Some user.
Proof.
  intros Hi H. destruct (message_headers_users cfg w envelope st Hi) as [Hc Ho].
  rewrite H in Hc, Ho. simpl in Hc, Ho. rewrite Hc, Ho.
  destruct (getUser w (e_oid envelope) (e_user envelope) st) as [[err | user] st0] eqn:Hu.
  - exfalso. revert H. unfold message_headers. covered Hi. cbv zeta. resolved Hu.
    discriminate.
  - exists user. exact (getUser_success_cached _ _ _ _ _ _ Hu).
Qed.

Lemma message_queue_cached {L : Libraries} (cfg : Config) (w : World)
    (envelope : Envelope) (st : State) (user : User) :
  users st !! e_oid envelope = Some user ->
  user_lookups (snd (message_queue cfg w envelope st)) = user_lookups st.
Proof.
  intros Hc. unfold message_queue.
  destruct (checkInterface cfg (e_interface envelope)); cbn [negb]; cbv iota; [|easy].
  resolved (getUser_hit w _ (e_user envelope) _ _ Hc).
  unfold bind, emit, ret, user_lookups.
  destruct (JS.truthy_num (u_quota user) && num_gt (u_storageUsed user) (u_quota user)).
  - simpl. now rewrite filter_snoc, List.app_nil_r.
  - destruct (gridstore_read w _) as [err | body]; simpl.
    + now rewrite filter_snoc, List.app_nil_r.
    + destruct (messageHandler_add w _) as [err | [uid|]]; simpl;
        now rewrite !filter_snoc, !List.app_nil_r.
Qed.

(** X5: the hooks of one message share one resolution.  When the
    message:headers hook has succeeded for an envelope, the message:queue
    hook on the envelope it left makes no lookup of the user, whatever the
    store holds by then. *)
Theorem message_queue_reuses_identity {L : Libraries} (cfg : Config) (w w' : World)
    (envelope out : Envelope) (st st1 : State) :
  checkInterface cfg (e_interface envelope) = true ->
  message_headers cfg w envelope st = ((out, Next), st1) ->
  user_lookups (snd (message_queue cfg w' out st1)) = user_lookups st1.
Proof.
  intros Hi H. destruct (message_headers_resolves cfg w envelope out st st1 Hi H)
    as [user Hc].
  exact (message_queue_cached cfg w' out st1 user Hc).
Qed.

Lemma message_queue_reuses_identity_witness :
  let L := Sample.libraries in
  let envelope := Sample.envelope "mallory@example.com" [("From", "eve@example.com")] in
  let run := message_headers Sample.config Sample.world envelope Sample.start in
  let gone := Sample.world_of (mkUser "0" "nobody" "" None None None) in
  user_lookups (snd run) = [CallUsersFindOne "alice"] /\
  user_lookups (snd (message_queue Sample.config gone (fst (fst run)) (snd run)))
    = user_lookups (snd run).
Proof.
  intros L envelope run gone. split; [reflexivity|].
  apply (message_queue_reuses_identity Sample.config Sample.world gone envelope
           (fst (fst run)) Sample.start (snd run)); reflexivity.
Defined.

Lemma rcpt_to_state (cfg : Config) (w : World) (address : string) (session : Session)
    (st st0 : State) (user : User) (cap : Z) :
  checkInterface cfg (s_interface session) = true ->
  getUser w (s_oid session) (s_user session) st = (inr user, st0) ->
  u_recipients user = Some cap -> cap <> 0 ->
  let st1 := snd (smtp_rcpt_to cfg w address session st) in
  users st1 = users st0 /\
  user_lookups st1 = user_lookups st0 /\
  counter_calls st1 =
    (counter_calls st0 ++ [CallTtlCounter ("wdr:" +:+ u_id user) 1 cap])%list.
Proof.
  intros Hi Hu Hcap Hne. cbn zeta. unfold smtp_rcpt_to. covered Hi. resolved Hu.
  rewrite Hcap. replace (JS.truthy_num (Some cap)) with true
    by (simpl; apply Z.eqb_neq in Hne; now rewrite Hne).
  simpl. unfold bind, emit, ret, user_lookups, counter_calls.
  destruct (ttlcounter w _ 1 cap) as [err | r]; [|destruct (cr_success r)]; simpl;
    rewrite !filter_snoc; simpl; now rewrite ?List.app_nil_r.
Qed.

(** X6: the recipients of one session.  For a user with a recipient cap,
    two RCPT TO commands of a session cost two increments of the same counter,
    whether the first one was accepted or denied, and one lookup of the user
    at most: the second command resolves the identity from the cache. *)
Theorem rcpt_to_twice (cfg : Config) (w w' : World) (address address' : string)
    (session : Session) (st st0 : State) (user : User) (cap : Z) :
  checkInterface cfg (s_interface session) = true ->
  getUser w (s_oid session) (s_user session) st = (inr user, st0) ->
  u_recipients user = Some cap -> cap <> 0 ->
  let st1 := snd (smtp_rcpt_to cfg w address session st) in
  let st2 := snd (smtp_rcpt_to cfg w' address' session st1) in
  user_lookups st2 = user_lookups st0 /\
  counter_calls st2 =
    (counter_calls st ++ [CallTtlCounter ("wdr:" +:+ u_id user) 1 cap;
                          CallTtlCounter ("wdr:" +:+ u_id user) 1 cap])%list.
Proof.
  intros Hi Hu Hcap Hne st1 st2.
  destruct (rcpt_to_state cfg w address session st st0 user cap Hi Hu Hcap Hne)
    as (Hc1 & Hl1 & Hn1). fold st1 in Hc1, Hl1, Hn1.
  assert (Hu' : getUser w' (s_oid session) (s_user session) st1 = (inr user, st1)).
  { apply getUser_hit. rewrite Hc1. exact (getUser_success_cached _ _ _ _ _ _ Hu). }
  destruct (rcpt_to_state cfg w' address' session st1 st1 user cap Hi Hu' Hcap Hne)
    as (_ & Hl2 & Hn2). fold st2 in Hl2, Hn2.
  destruct (getUser_calls _ _ _ _ _ _ Hu) as [Hc0 _].
  rewrite Hl2, Hl1, Hn2, Hn1, Hc0, <- List.app_assoc. easy.
Qed.

Lemma rcpt_to_twice_witness :
  let st1 := snd (smtp_rcpt_to Sample.config Sample.world "bob@example.org"
                    Sample.session Sample.start) in
  let st2 := snd (smtp_rcpt_to Sample.config Sample.world "carol@example.org"
                    Sample.session st1) in
  user_lookups st2 = [CallUsersFindOne "alice"] /\
  counter_calls st2 = [CallTtlCounter "wdr:59a0" 1 100; CallTtlCounter "wdr:59a0" 1 100].
Proof.
  cbn zeta.
  apply (rcpt_to_twice Sample.config Sample.world Sample.world "bob@example.org"
           "carol@example.org" Sample.session Sample.start
           (mkState {[1%nat := Sample.alice]} [CallUsersFindOne "alice"])
           Sample.alice 100); try reflexivity. discriminate.
Defined.

End Reuse.

(** ** What the message:headers hook changes *)
Module HeaderFrame.
Import Identity.

#[local] Arguments String.append : simpl nomatch.

Lemma envelope_eta {L : Libraries} (envelope : Envelope) :
  set_headers (set_from envelope (e_from envelope)) (e_headers envelope) = envelope.
Proof. now destruct envelope. Qed.

(** X7: the hook changes the sender and the headers of the envelope and
    nothing else; the headers change only when the hook succeeds, and the
    sender only to the address of the resolved user. *)
Theorem message_headers_frame {L : Libraries} (cfg : Config) (w : World)
    (envelope : Envelope) (st : State) :
  let out := fst (fst (message_headers cfg w envelope st)) in
  let res := snd (fst (message_headers cfg w envelope st)) in
  set_headers (set_from out (e_from envelope)) (e_headers envelope) = envelope /\
  (res <> Next -> e_headers out = e_headers envelope) /\
  (e_from out = e_from envelope \/
   exists user, users (snd (message_headers cfg w envelope st)) !! e_oid envelope
                  = Some user /\ e_from out = u_address user).
Proof.
  cbn zeta. unfold message_headers.
  destruct (checkInterface cfg (e_interface envelope)); cbn [negb]; cbv iota zeta;
    [|split; [apply envelope_eta | split; [easy | now left]]].
  destruct (getUser w (e_oid envelope) (e_user envelope) st) as [r st0] eqn:Hu.
  resolved Hu. destruct r as [err | user];
    [split; [apply envelope_eta | split; [easy | now left]]|].
  pose proof (Cache.getUser_success_cached _ _ _ _ _ _ Hu) as Hc.
  unfold bind, emit, ret.
  destruct (addresses_findOne w _) as [err | [a|]];
    [split; [apply envelope_eta | split; [easy | now left]] | |];
    (destruct (first_from_object _) as [o|];
       [simpl; destruct (addresses_findOne w _) as [err | [a'|]]|]);
    simpl; (split; [now destruct envelope | split; [easy|]]);
    first [now left | right; exists user; now split].
Qed.

(** X8: the headers stay as they are when the From: header is missing or
    holds no address, and when its first address is one of the user's; the
    sender is still corrected when it is not one of the user's. *)
Theorem message_headers_keeps_from {L : Libraries} (cfg : Config) (w : World)
    (envelope : Envelope) (st st1 : State) (user : User)
    (owned : option AddressData) :
  checkInterface cfg (e_interface envelope) = true ->
  getUser w (e_oid envelope) (e_user envelope) st = (inr user, st1) ->
  addresses_findOne w
    (mkAddressQuery (normalized (AddrString (e_from envelope))) (Some (u_id user)))
    = inr owned ->
  let headerFrom := headers_getFirst (e_headers envelope) "from" in
  (first_from_object headerFrom = None \/
   exists obj data, first_from_object headerFrom = Some obj /\
     addresses_findOne w
       (mkAddressQuery (normalized (arg_of_opt (ao_address obj))) (Some (u_id user)))
       = inr (Some data)) ->
  fst (message_headers cfg w envelope st) =
    (set_from envelope (match owned with
                        | Some _ => e_from envelope
                        | None => u_address user
                        end), Next).
Proof.
  intros Hi Hu Hown headerFrom Hfrom.
  unfold message_headers. covered Hi. cbv zeta. resolved Hu. fold headerFrom.
  unfold bind, emit, ret. rewrite Hown.
  destruct Hfrom as [-> | (obj & data & -> & Hobj)];
    destruct owned; simpl; rewrite ?Hobj; simpl; now destruct envelope.
Qed.

Lemma message_headers_keeps_from_witness :
  let L := Sample.libraries in
  let run (from : string) (h : Sample.lines) :=
    fst (message_headers Sample.config Sample.world (Sample.envelope from h)
           Sample.start) in
  run "mallory@example.com" [] = (Sample.envelope "alice@example.com" [], Next) /\
  run "Alice+lists@Example.com" [("From", "alice+news@example.com")] =
    (Sample.envelope "Alice+lists@Example.com" [("From", "alice+news@example.com")],
     Next).
Proof.
  intros L run. subst run. cbn beta. split.
  - apply (message_headers_keeps_from Sample.config Sample.world
             (Sample.envelope "mallory@example.com" []) Sample.start
             (mkState {[2%nat := Sample.alice]} [CallUsersFindOne "alice"])
             Sample.alice None eq_refl eq_refl eq_refl).
    now left.
  - apply (message_headers_keeps_from Sample.config Sample.world
             (Sample.envelope "Alice+lists@Example.com"
                [("From", "alice+news@example.com")]) Sample.start
             (mkState {[2%nat := Sample.alice]} [CallUsersFindOne "alice"])
             Sample.alice (Some (mkAddressData "alice@example.com" "59a0"))
             eq_refl eq_refl eq_refl).
    right. exists (mkAddressObject None (Some "alice+news@example.com") false),
             (mkAddressData "alice@example.com" "59a0").
    split; reflexivity.
Defined.

(** X9: a failure of the address directory.  When the lookup of the
    envelope sender fails, the hook fails with that error and the envelope is
    as it was.  When the lookup of the From: address fails, the hook fails
    with that error and the headers are as they were, but a sender replaced
    by the first step stays replaced. *)
Theorem message_headers_directory_error {L : Libraries} (cfg : Config) (w : World)
    (envelope : Envelope) (st st1 : State) (user : User) (err : Error) :
  checkInterface cfg (e_interface envelope) = true ->
  getUser w (e_oid envelope) (e_user envelope) st = (inr user, st1) ->
  let first := addresses_findOne w
                 (mkAddressQuery (normalized (AddrString (e_from envelope)))
                    (Some (u_id user))) in
  let headerFrom := headers_getFirst (e_headers envelope) "from" in
  (first = inl err -> fst (message_headers cfg w envelope st) = (envelope, NextErr err)) /\
  (forall obj, first = inr None -> first_from_object headerFrom = Some obj ->
     addresses_findOne w
       (mkAddressQuery (normalized (arg_of_opt (ao_address obj))) (Some (u_id user)))
       = inl err ->
     fst (message_headers cfg w envelope st) =
       (set_from envelope (u_address user), NextErr err)).
Proof.
  intros Hi Hu first headerFrom.
  unfold message_headers. covered Hi. cbv zeta. resolved Hu. fold headerFrom.
  unfold bind, emit, ret. fold first. split.
  - intros ->. reflexivity.
  - intros obj -> -> Hobj. simpl. now rewrite Hobj.
Qed.

Lemma message_headers_directory_error_witness :
  let L := Sample.libraries in
  let envelope := Sample.envelope "mallory@example.com" [("From", "eve@example.com")] in
  let down := Sample.world_with Sample.alice (fun _ => inl Sample.outage)
                (inl Sample.outage) (inl Sample.outage) (inl Sample.outage) in
  let flaky := Sample.world_with Sample.alice
                 (fun q => if String.eqb (q_address q) "eve@example.com"
                           then inl Sample.outage else inr None)
                 (inl Sample.outage) (inl Sample.outage) (inl Sample.outage) in
  fst (message_headers Sample.config down envelope Sample.start)
    = (envelope, NextErr Sample.outage) /\
  fst (message_headers Sample.config flaky envelope Sample.start)
    = (Sample.envelope "alice@example.com" [("From", "eve@example.com")],
       NextErr Sample.outage).
Proof.
  intros L envelope down flaky. split.
  - destruct (message_headers_directory_error Sample.config down envelope Sample.start
                (mkState {[2%nat := Sample.alice]} [CallUsersFindOne "alice"])
                Sample.alice Sample.outage eq_refl eq_refl) as [H _].
    exact (H eq_refl).
  - destruct (message_headers_directory_error Sample.config flaky envelope Sample.start
                (mkState {[2%nat := Sample.alice]} [CallUsersFindOne "alice"])
                Sample.alice Sample.outage eq_refl eq_refl) as [_ H].
    exact (H (mkAddressObject None (Some "eve@example.com") false)
             eq_refl eq_refl eq_refl).
Defined.

End HeaderFrame.

(** ** The copy for the Sent folder *)
Module Submission.
Import Identity.

#[local] Arguments String.append : simpl nomatch.

(** X10: under quota, a body stream that fails makes the hook fail with
    the error of the stream, and nothing is submitted to the archive. *)
Theorem message_queue_stream_error {L : Libraries} (cfg : Config) (w : World)
    (envelope : Envelope) (st st1 : State) (user : User) (err : Error) :
  checkInterface cfg (e_interface envelope) = true ->
  getUser w (e_oid envelope) (e_user envelope) st = (inr user, st1) ->
  JS.truthy_num (u_quota user) && num_gt (u_storageUsed user) (u_quota user) = false ->
  gridstore_read w ("message " +:+ e_id envelope) = inl err ->
  fst (message_queue cfg w envelope st) = NextErr err /\
  archive_calls (snd (message_queue cfg w envelope st)) =
    (archive_calls st ++ [CallReadStream ("message " +:+ e_id envelope)])%list.
Proof.
  intros Hi Hu Hq Hs. unfold message_queue. covered Hi. resolved Hu. rewrite Hq.
  unfold bind, emit, ret. rewrite Hs. simpl. split; [reflexivity|].
  destruct (getUser_calls _ _ _ _ _ _ Hu) as [_ Ha].
  unfold archive_calls in *. simpl. now rewrite List.filter_app, Ha.
Qed.

Lemma message_queue_stream_error_witness :
  let L := Sample.libraries in
  let w := Sample.world_with Sample.alice (fun _ => inr None) (inl Sample.outage)
             (inl Sample.outage) (inr (Some 7)) in
  let run := message_queue Sample.config w (Sample.envelope "alice@example.com" [])
               Sample.start in
  fst run = NextErr Sample.outage /\
  archive_calls (snd run) = [CallReadStream "message abc123"].
Proof.
  intros L w. cbn zeta.
  apply (message_queue_stream_error Sample.config w
           (Sample.envelope "alice@example.com" []) Sample.start
           (mkState {[2%nat := Sample.alice]} [CallUsersFindOne "alice"])
           Sample.alice Sample.outage); reflexivity.
Defined.

Lemma append_empty (s : string) : s +:+ "" = s.
Proof. induction s as [|c s IH]; simpl; [reflexivity | now rewrite IH]. Qed.

Lemma concat_chunks (x : string) (l : list string) :
  String.concat "" (x :: l) = x +:+ String.concat "" l.
Proof. destruct l; simpl; [now rewrite append_empty | reflexivity]. Qed.

(** X11: under quota, once the body is read the hook succeeds whatever
    the archive answers, an error included.  The archive gets one message:
    for the resolved user, for the Sent folder, flagged seen, with duplicates
    skipped, its metadata taken from the envelope, and as raw content the
    Return-Path line with the envelope sender, the Received line, the headers
    and the body, in this order. *)
Theorem message_queue_submits {L : Libraries} (cfg : Config) (w : World)
    (envelope : Envelope) (st st1 : State) (user : User) (body : list string) :
  checkInterface cfg (e_interface envelope) = true ->
  getUser w (e_oid envelope) (e_user envelope) st = (inr user, st1) ->
  JS.truthy_num (u_quota user) && num_gt (u_storageUsed user) (u_quota user) = false ->
  gridstore_read w ("message " +:+ e_id envelope) = inr body ->
  let raw :=
    ("Return-Path: " +:+ e_from envelope +:+ JS.CRLF +:+
     generateReceivedHeader envelope (JS.or_else (cfg_hostname cfg) (os_hostname w)) +:+
     JS.CRLF) +:+
    headers_build (e_headers envelope) +:+ String.concat "" body in
  let message :=
    mkArchiveMessage (u_id user) "\Sent"
      (mkArchiveMeta "SMTP" (e_from envelope) (e_to envelope)
         (e_remoteAddress envelope) (e_clientHostname envelope)
         (e_hostNameAppearsAs envelope) (e_transmissionType envelope) (Date_now w))
      false ["\Seen"] raw true in
  fst (message_queue cfg w envelope st) = Next /\
  archive_calls (snd (message_queue cfg w envelope st)) =
    (archive_calls st ++
     [CallReadStream ("message " +:+ e_id envelope); CallArchiveAdd message])%list.
Proof.
  intros Hi Hu Hq Hs raw message.
  assert (Hraw : String.concat ""
            (["Return-Path: " +:+ e_from envelope +:+ JS.CRLF +:+
              generateReceivedHeader envelope
                (JS.or_else (cfg_hostname cfg) (os_hostname w)) +:+ JS.CRLF;
              headers_build (e_headers envelope)] ++ body)%list = raw).
  { subst raw. cbn [app]. now rewrite !concat_chunks. }
  unfold message_queue. covered Hi. resolved Hu. rewrite Hq.
  unfold bind, emit, ret. rewrite Hs. cbv zeta. rewrite Hraw.
  unfold archive_message. fold message.
  destruct (getUser_calls _ _ _ _ _ _ Hu) as [_ Ha].
  destruct (messageHandler_add w message) as [err | [uid|]]; simpl;
    (split; [reflexivity|]); unfold archive_calls in *; simpl;
    rewrite !List.filter_app, Ha; simpl; now rewrite <- !List.app_assoc.
Qed.

Lemma message_queue_submits_witness :
  let L := Sample.libraries in
  let w := Sample.world_with Sample.alice (fun _ => inr None) (inl Sample.outage)
             (inr ["Hello "; "Bob"]) (inl Sample.outage) in
  let envelope := Sample.envelope "alice@example.com" [("Subject", "Hi")] in
  let run := message_queue Sample.config w envelope Sample.start in
  fst run = Next /\
  exists meta,
    archive_calls (snd run) =
      [CallReadStream "message abc123";
       CallArchiveAdd
         (mkArchiveMessage "59a0" "\Sent" meta false ["\Seen"]
            ("Return-Path: alice@example.com" +:+ JS.CRLF +:+
             "Received: from mail.example.com [203.0.113.5] (Authenticated sender: alice)"
             +:+ JS.CRLF +:+ " by mx.example.com with ESMTP id abc123" +:+ JS.CRLF +:+
             " for <bob@example.org>;" +:+ JS.CRLF +:+
             " Wed, 03 Aug 2016 11:32:07 +0000" +:+ JS.CRLF +:+
             "Subject: Hi" +:+ JS.CRLF +:+ JS.CRLF +:+ "Hello Bob")
            true)].
Proof.
  intros L w envelope. cbn zeta.
  destruct (message_queue_submits Sample.config w envelope Sample.start
              (mkState {[2%nat := Sample.alice]} [CallUsersFindOne "alice"])
              Sample.alice ["Hello "; "Bob"] eq_refl eq_refl eq_refl eq_refl)
    as [H1 H2].
  split; [exact H1|]. eexists. exact H2.
Defined.

End Submission.

(** ** Forwarded deliveries *)
Module Forwarding.

#[local] Arguments String.append : simpl nomatch.

(** X12: a delivery on another interface than the forwarder goes through
    the sender:headers hook as it is. *)
Theorem sender_headers_other_interface {L : Libraries} (cfg : Config)
    (delivery : Delivery) (st : State) :
  d_interface delivery <> cfg_forwarder cfg ->
  sender_headers cfg delivery st = ((delivery, Next), st).
Proof.
  intros H. unfold sender_headers.
  rewrite (bool_decide_eq_false_2 _ H). simpl. now rewrite orb_true_r.
Qed.

Lemma sender_headers_other_interface_witness :
  let L := Sample.libraries in
  let delivery := Sample.delivery (Some "default") (Some "x@y.com") "bob@example.org" in
  sender_headers Sample.config delivery Sample.start = ((delivery, Next), Sample.start).
Proof.
  intros L delivery.
  apply (sender_headers_other_interface Sample.config delivery Sample.start).
  discriminate.
Defined.

(** X13: the hook never fails, and it changes the sender and the headers
    of the delivery only: recipient, route and identifiers stay, and so does
    the cache of identities. *)
Theorem sender_headers_never_fails {L : Libraries} (cfg : Config)
    (delivery : Delivery) (st : State) :
  let run := sender_headers cfg delivery st in
  snd (fst run) = Next /\
  set_sender (fst (fst run)) (d_from delivery) (d_headers delivery) = delivery /\
  users (snd run) = users st.
Proof.
  cbn zeta. unfold sender_headers.
  destruct (negb (JS.truthy_opt (d_from delivery)) ||
            negb (bool_decide (d_interface delivery = cfg_forwarder cfg))).
  - simpl. now destruct delivery.
  - destruct (srs_rewrite _ _ _) as [E | alias]; simpl; now destruct delivery.
Qed.

(** X14: on the forwarder interface, a delivery with a sender gets the
    three trace headers, in the order X-Original-Sender,
    X-Zone-Forwarded-For and X-Zone-Forwarded-To, whether the rewriting
    succeeds or not.  The rewriter is given the text before the last [@] and
    the lower-cased text after it; its alias followed by [@] and the rewrite
    domain becomes the sender.  When the rewriter throws, the sender stays
    and the failure is logged. *)
Theorem sender_headers_forwarded {L : Libraries} (cfg : Config)
    (delivery : Delivery) (st : State) (from : string) :
  d_from delivery = Some from -> from <> "" ->
  d_interface delivery = cfg_forwarder cfg ->
  let run := sender_headers cfg delivery st in
  let out := fst (fst run) in
  let answer := srs_rewrite (cfg_secret cfg) (local_part from)
                  (JS.toLowerCase (domain_part from)) in
  d_headers out =
    headers_add
      (headers_add (headers_add (d_headers delivery) "X-Original-Sender" from)
         "X-Zone-Forwarded-For" from)
      "X-Zone-Forwarded-To" (d_to delivery) /\
  (forall alias, answer = inr alias ->
     d_from out = Some (alias +:+ "@" +:+ JS.to_str (cfg_rewriteDomain cfg)) /\
     snd run = st) /\
  (forall E, answer = inl E ->
     d_from out = Some from /\
     exists format,
       trace (snd run) =
       (trace st ++ [Log "error" "SRS" format
                       [d_id delivery; d_seq delivery; from; err_message E]])%list).
Proof.
  intros Hf Hne Hi. cbn zeta. unfold sender_headers.
  rewrite Hf, Hi. replace (JS.truthy_opt (Some from)) with true
    by (destruct from; [congruence | reflexivity]).
  rewrite bool_decide_eq_true_2 by reflexivity. cbn [negb orb]. cbv iota zeta.
  replace (JS.or_else (Some from) "") with from
    by (destruct from; [congruence | reflexivity]).
  fold (local_part from). fold (domain_part from).
  destruct (srs_rewrite _ _ _) as [E | alias]; simpl.
  - split; [reflexivity|]. split; [discriminate|].
    intros E' [= <-]. split; [reflexivity|]. now eexists.
  - split; [reflexivity|]. split; [|discriminate].
    intros alias' [= <-]. split; [reflexivity | now destruct st].
Qed.

Lemma sender_headers_forwarded_witness :
  let delivery := Sample.delivery (Some "forwarder") (Some "Carol@Example.NET")
                    "bob@example.org" in
  let held := mkDelivery (L := Sample.throwing) "d1" "001" (Some "forwarder")
                (Some "Carol@Example.NET") "bob@example.org" ([] : Sample.lines)
                None None false None in
  let sent := fst (fst (sender_headers Sample.config delivery Sample.start)) in
  let kept := fst (fst (sender_headers Sample.config held Sample.start)) in
  d_from sent = Some "SRS0=secret=example.net=Carol@srs.example.com" /\
  d_headers sent = [("X-Original-Sender", "Carol@Example.NET");
                    ("X-Zone-Forwarded-For", "Carol@Example.NET");
                    ("X-Zone-Forwarded-To", "bob@example.org")] /\
  d_from kept = Some "Carol@Example.NET" /\
  d_headers kept = [("X-Original-Sender", "Carol@Example.NET");
                    ("X-Zone-Forwarded-For", "Carol@Example.NET");
                    ("X-Zone-Forwarded-To", "bob@example.org")].
Proof.
  intros delivery held. cbn zeta.
  destruct (sender_headers_forwarded Sample.config delivery
              Sample.start "Carol@Example.NET" eq_refl ltac:(discriminate) eq_refl)
    as (H1 & H2 & _).
  destruct (sender_headers_forwarded Sample.config held
              Sample.start "Carol@Example.NET" eq_refl ltac:(discriminate) eq_refl)
    as (H3 & _ & H4).
  refine (conj _ (conj _ (conj _ _))).
  - exact (proj1 (H2 _ eq_refl)).
  - exact H1.
  - exact (proj1 (H4 _ eq_refl)).
  - exact H3.
Defined.

End Forwarding.

(** ** Local routing *)
Module Routing.

#[local] Arguments String.append : simpl nomatch.

(** X15: when the address directory fails on the lookup of the canonical
    recipient address, the routing hook fails with that error and the
    delivery is as it was; that lookup, for the canonical address under any
    owner, is the only call the hook has made, and the cache of identities is
    as it was. *)
Theorem sender_fetch_lookup {L : Libraries} (cfg : Config) (w : World)
    (delivery : Delivery) (st : State) (err : Error) :
  let query := mkAddressQuery (normalized (AddrString (d_to delivery))) None in
  addresses_findOne w query = inl err ->
  sender_fetch cfg w delivery st =
    ((delivery, NextErr err),
     mkState (users st) (trace st ++ [CallAddressesFindOne query])).
Proof.
  cbn zeta. intros H. unfold sender_fetch, bind, emit, ret. now rewrite H.
Qed.

Lemma sender_fetch_lookup_witness :
  let L := Sample.libraries in
  let down := Sample.world_with Sample.alice (fun _ => inl Sample.outage)
                (inl Sample.outage) (inl Sample.outage) (inl Sample.outage) in
  let delivery := Sample.delivery None (Some "x@y.com") "Alice+news@Example.com" in
  sender_fetch Sample.config down delivery Sample.start =
    ((delivery, NextErr Sample.outage),
     mkState ∅ [CallAddressesFindOne (mkAddressQuery "alice@example.com" None)]).
Proof.
  intros L down delivery.
  exact (sender_fetch_lookup Sample.config down delivery Sample.start Sample.outage
           eq_refl).
Defined.

End Routing.

(** ** The counter store and the reply of the recipient gate *)
Module Limits.
Import Identity.

#[local] Arguments String.append : simpl nomatch.

(** X16: an error of the counter store is no denial: the recipient gate
    fails with that very error, after its one call to the store, and logs
    nothing. *)
Theorem rcpt_to_counter_error (cfg : Config) (w : World) (address : string)
    (session : Session) (st st1 : State) (user : User) (cap : Z) (err : Error) :
  checkInterface cfg (s_interface session) = true ->
  getUser w (s_oid session) (s_user session) st = (inr user, st1) ->
  u_recipients user = Some cap -> cap <> 0 ->
  ttlcounter w ("wdr:" +:+ u_id user) 1 cap = inl err ->
  smtp_rcpt_to cfg w address session st =
    (NextErr err,
     mkState (users st1) (trace st1 ++ [CallTtlCounter ("wdr:" +:+ u_id user) 1 cap])).
Proof.
  intros Hi Hu Hcap Hne Hc. unfold smtp_rcpt_to. covered Hi. resolved Hu.
  rewrite Hcap. replace (JS.truthy_num (Some cap)) with true
    by (simpl; apply Z.eqb_neq in Hne; now rewrite Hne).
  cbn [negb]. cbv iota zeta. change (default 0 (Some cap)) with cap.
  unfold bind, emit, ret. now rewrite Hc.
Qed.

Lemma rcpt_to_counter_error_witness :
  let w := Sample.world_with Sample.alice (fun _ => inr None) (inl Sample.outage)
             (inr []) (inr None) in
  smtp_rcpt_to Sample.config w "bob@example.org" Sample.session Sample.start =
    (NextErr Sample.outage,
     mkState {[1%nat := Sample.alice]}
       [CallUsersFindOne "alice"; CallTtlCounter "wdr:59a0" 1 100]).
Proof.
  intros w.
  exact (rcpt_to_counter_error Sample.config w "bob@example.org" Sample.session
           Sample.start (mkState {[1%nat := Sample.alice]} [CallUsersFindOne "alice"])
           Sample.alice 100 Sample.outage eq_refl eq_refl eq_refl
           ltac:(discriminate) eq_refl).
Defined.

Lemma round_div_bounds (n d lo hi : Z) :
  0 < d -> 2 * d * lo - d <= 2 * n < 2 * d * hi + d ->
  lo <= JS.round_div n d <= hi.
Proof.
  intros Hd H. pose proof (RateGate.round_div_nearest n d Hd) as B. cbn zeta in B.
  split; nia.
Qed.

(** X17: the range of the remaining time in the reply.  Below an hour the
    minutes run from 1 to 60, the last half minute before the hour showing
    as 60 minutes; from an hour on the hours start at 1, and the first half
    hour shows as 1 hours.  A negative ttl shows as that many seconds. *)
Theorem ttlHuman_range (ttl : Z) :
  (ttl < 0 -> ttlHuman ttl = Some (JS.num_to_str ttl +:+ " seconds")) /\
  (60 <= ttl < 3600 ->
     exists m, 1 <= m <= 60 /\ ttlHuman ttl = Some (JS.num_to_str m +:+ " minutes")) /\
  (3570 <= ttl < 3600 -> ttlHuman ttl = Some "60 minutes") /\
  (3600 <= ttl ->
     exists h, 1 <= h /\ ttlHuman ttl = Some (JS.num_to_str h +:+ " hours")) /\
  (3600 <= ttl < 5400 -> ttlHuman ttl = Some "1 hours").
Proof.
  assert (Hmin : 60 <= ttl < 3600 ->
            ttlHuman ttl = Some (JS.num_to_str (JS.round_div ttl 60) +:+ " minutes")).
  { intros H. unfold ttlHuman.
    replace (ttl =? 0) with false by (symmetry; apply Z.eqb_neq; lia).
    replace (ttl <? 60) with false by (symmetry; apply Z.ltb_ge; lia).
    now replace (ttl <? 3600) with true by (symmetry; apply Z.ltb_lt; lia). }
  assert (Hhrs : 3600 <= ttl ->
            ttlHuman ttl = Some (JS.num_to_str (JS.round_div ttl 3600) +:+ " hours")).
  { intros H. unfold ttlHuman.
    replace (ttl =? 0) with false by (symmetry; apply Z.eqb_neq; lia).
    replace (ttl <? 60) with false by (symmetry; apply Z.ltb_ge; lia).
    now replace (ttl <? 3600) with false by (symmetry; apply Z.ltb_ge; lia). }
  refine (conj _ (conj _ (conj _ (conj _ _)))).
  - intros H. unfold ttlHuman.
    replace (ttl =? 0) with false by (symmetry; apply Z.eqb_neq; lia).
    now replace (ttl <? 60) with true by (symmetry; apply Z.ltb_lt; lia).
  - intros H. exists (JS.round_div ttl 60). split; [|now apply Hmin].
    apply round_div_bounds; lia.
  - intros H. rewrite Hmin by lia.
    replace (JS.round_div ttl 60) with 60; [reflexivity|].
    pose proof (round_div_bounds ttl 60 60 60 ltac:(lia) ltac:(lia)). lia.
  - intros H. exists (JS.round_div ttl 3600). split; [|now apply Hhrs].
    pose proof (RateGate.round_div_nearest ttl 3600 ltac:(lia)) as B.
    cbn zeta in B. lia.
  - intros H. rewrite Hhrs by lia.
    replace (JS.round_div ttl 3600) with 1; [reflexivity|].
    pose proof (round_div_bounds ttl 3600 1 1 ltac:(lia) ltac:(lia)). lia.
Qed.

Lemma ttlHuman_range_witness :
  ttlHuman (-1) = Some "-1 seconds" /\
  ttlHuman 3599 = Some "60 minutes" /\
  ttlHuman 3600 = Some "1 hours".
Proof.
  refine (conj _ (conj _ _)).
  - apply (ttlHuman_range (-1)). lia.
  - apply (ttlHuman_range 3599). lia.
  - destruct (ttlHuman_range 3600) as (_ & _ & _ & _ & H). apply H. lia.
Defined.

End Limits.

(** ** What the authentication hook changes *)
Module Credentials.
Import Identity.

#[local] Arguments String.append : simpl nomatch.

(** X18: the authentication hook never changes the password nor the
    cache of identities, and it changes the username only when it succeeds.
    On a covered interface it asks the identity store once, with the
    username and the password of the client and the remote address of the
    session. *)
Theorem smtp_auth_frame (cfg : Config) (w : World) (auth : Auth) (session : Session)
    (st : State) :
  let run := smtp_auth cfg w auth session st in
  auth_password (fst (fst run)) = auth_password auth /\
  users (snd run) = users st /\
  (snd (fst run) <> Next -> fst (fst run) = auth) /\
  (checkInterface cfg (s_interface session) = true ->
   trace (snd run) =
     (trace st ++ [CallAuthenticate (auth_username auth) (auth_password auth)
                     (s_remoteAddress session)])%list).
Proof.
  cbn zeta. unfold smtp_auth.
  destruct (checkInterface cfg (s_interface session)); cbn [negb]; cbv iota;
    [|repeat split; congruence].
  unfold bind, emit, ret.
  destruct (authenticate w _ _ _) as [err | [r|]]; simpl; [easy | | easy].
  destruct (String.eqb (ar_scope r) "master" && ar_enabled2fa r); simpl; easy.
Qed.

Lemma smtp_auth_frame_witness :
  let run := smtp_auth Sample.config Sample.world (mkAuth "alice" "wrong")
               Sample.session Sample.start in
  fst (fst run) = mkAuth "alice" "wrong" /\
  trace (snd run) = [CallAuthenticate "alice" "wrong" "203.0.113.5"].
Proof.
  cbn zeta.
  destruct (smtp_auth_frame Sample.config Sample.world (mkAuth "alice" "wrong")
              Sample.session Sample.start) as (_ & _ & H1 & H2).
  split; [apply H1; discriminate | exact (H2 eq_refl)].
Defined.

End Credentials.

(** ** More on the address normalizer *)
Module Canonical.
Import JS JSFacts Normalizer.

#[local] Arguments String.append : simpl nomatch.

Lemma append_cons_ne (a : string) (c : ascii) (b : string) : a +:+ String c b <> "".
Proof. now destruct a. Qed.

(** *** Addresses without an [@] *)

Lemma local_part_without_at (s : string) : no_at_sign s = true -> local_part s = "".
Proof.
  intros H. unfold local_part, lastIndexOf.
  rewrite lastIndexOf_from_absent by exact H. unfold substr.
  replace (0 <? 0) with false by reflexivity.
  replace (Z.min (Z.max (-1) 0) (Z.of_nat (String.length s) - Z.min 0 (Z.of_nat (String.length s))))
    with 0 by lia.
  reflexivity.
Qed.

Lemma substr_whole (s : string) : substr s 0 None = s.
Proof.
  unfold substr. set (n := Z.of_nat (String.length s)).
  replace (0 <? 0) with false by reflexivity.
  replace (Z.min 0 n) with 0 by lia. replace (n - 0) with n by lia.
  destruct (n <=? 0) eqn:E.
  - apply Z.leb_le in E. destruct s; [reflexivity | subst n; simpl in E; lia].
  - subst n. rewrite Nat2Z.id. apply substring_all.
Qed.

Lemma domain_part_without_at (s : string) : no_at_sign s = true -> domain_part s = s.
Proof.
  intros H. unfold domain_part, lastIndexOf.
  rewrite lastIndexOf_from_absent by exact H. apply substr_whole.
Qed.

(** X19: an address without an [@] is taken as a domain: its canonical
    string is an empty local part, the [@] and the canonical form of the
    whole text. *)
Theorem normalizeAddress_without_at {L : Libraries} (s : string) :
  s <> "" -> no_at_sign s = true ->
  normalized (AddrString s) = "@" +:+ punycode_toUnicode (trim (toLowerCase s)).
Proof.
  intros Hne Hat. rewrite normalized_string by (destruct s; [congruence | reflexivity]).
  unfold canonical_domain.
  now rewrite (local_part_without_at s Hat), (domain_part_without_at s Hat).
Qed.

Lemma normalizeAddress_without_at_witness :
  normalized (L := Sample.libraries) (AddrString "Postmaster") = "@postmaster".
Proof.
  apply (normalizeAddress_without_at (L := Sample.libraries) "Postmaster");
    [discriminate | reflexivity].
Defined.

(** *** Malformed input *)

(** X20: with no address, that is for [undefined], for an object without
    an [address] and for an empty string, the result is the empty string,
    under [withNames] too: a string, not an object.  With a non-empty
    address the result is the canonical local part, the [@] and what
    [punycode.toUnicode] returns for the canonical domain, which is never the
    empty string; under [withNames] it is the pair of the name, or the empty
    string for a missing one, and that string. *)
Theorem normalizeAddress_empty {L : Libraries} (a : AddressArg) :
  let missing := address_of a = None \/ address_of a = Some "" in
  let name := match a with
              | AddrObject o => or_else (ao_name o) ""
              | _ => ""
              end in
  (missing -> forall withNames, normalizeAddress a withNames = NormString "") /\
  (forall s, address_of a = Some s -> s <> "" ->
     let address :=
       trim (toLowerCase (replace_plus_tail (local_part s))) +:+ "@" +:+
       punycode_toUnicode (trim (toLowerCase (domain_part s))) in
     address <> "" /\
     normalizeAddress a false = NormString address /\
     normalizeAddress a true = NormObject name address).
Proof.
  cbn zeta. split.
  - destruct a as [s | [n [s|] g] |]; simpl; intros [H | H] withNames;
      try discriminate; try reflexivity; injection H as ->; reflexivity.
  - intros s Hs Hne. split; [apply append_cons_ne|].
    destruct a as [s' | [n [s'|] g] |]; simpl in Hs; try discriminate;
      injection Hs as ->; (destruct s; [congruence|]); split; reflexivity.
Qed.

Lemma normalizeAddress_empty_witness :
  let L := Sample.libraries in
  normalizeAddress (AddrObject (mkAddressObject (Some "Nobody") None false)) true
    = NormString "" /\
  normalizeAddress (AddrObject (mkAddressObject None (Some "A@B.example") false)) true
    = NormObject "" "a@b.example".
Proof.
  intros L. split.
  - pose proof (normalizeAddress_empty
                  (AddrObject (mkAddressObject (Some "Nobody") None false))) as H.
    cbn zeta in H. destruct H as (H & _). apply H. now left.
  - pose proof (normalizeAddress_empty
                  (AddrObject (mkAddressObject None (Some "A@B.example") false))) as H.
    cbn zeta in H. destruct H as (_ & H).
    exact (proj2 (proj2 (H "A@B.example" eq_refl ltac:(discriminate)))).
Defined.

(** *** The plus tag *)

Lemma replace_plus_tail_tag (u tag : string) :
  no_plus_sign u = true -> no_line_terminator tag = true ->
  replace_plus_tail (u +:+ String "+" tag) = u.
Proof.
  intros Hu Ht. induction u as [|c u IH]; simpl.
  - now rewrite Ht.
  - simpl in Hu. apply andb_true_iff in Hu as [Hc Hu].
    apply negb_true_iff in Hc. rewrite Hc. simpl. now rewrite IH.
Qed.

(** X21: a tag is ignored.  For a local part without a plus sign, a tag
    without a line terminator and a domain without an [@], the address with
    the tag and the address without it have the same canonical string. *)
Theorem normalizeAddress_ignores_tag {L : Libraries} (u tag d : string) :
  no_plus_sign u = true -> no_line_terminator tag = true -> no_at_sign d = true ->
  normalized (AddrString (u +:+ "+" +:+ tag +:+ "@" +:+ d)) =
  normalized (AddrString (u +:+ "@" +:+ d)).
Proof.
  intros Hu Ht Hd.
  change (u +:+ "+" +:+ tag +:+ "@" +:+ d) with (u +:+ String "+" (tag +:+ String "@" d)).
  replace (u +:+ String "+" (tag +:+ String "@" d))
    with ((u +:+ String "+" tag) +:+ String "@" d)
    by (rewrite append_assoc; reflexivity).
  change (u +:+ "@" +:+ d) with (u +:+ String "@" d).
  rewrite !normalized_string by apply truthy_append_cons.
  unfold canonical_domain, local_part, domain_part.
  rewrite !lastIndexOf_split by exact Hd.
  rewrite !substr_local, !substr_domain.
  now rewrite replace_plus_tail_tag, replace_plus_tail_fixed.
Qed.

Lemma normalizeAddress_ignores_tag_witness :
  let normalize := normalized (L := Sample.libraries) in
  normalize (AddrString "alice+news@example.com") = "alice@example.com" /\
  normalize (AddrString "alice+news@example.com") =
  normalize (AddrString "alice@example.com").
Proof.
  split; [reflexivity|].
  apply (normalizeAddress_ignores_tag (L := Sample.libraries) "alice" "news"
           "example.com"); reflexivity.
Defined.

(** *** Letter case *)

Lemma lower_char_at (c : ascii) : Ascii.eqb (lower_char c) "@" = Ascii.eqb c "@".
Proof. destruct c as [[] [] [] [] [] [] [] []]; reflexivity. Qed.

Lemma lower_char_line_terminator (c : ascii) :
  is_line_terminator (lower_char c) = is_line_terminator c.
Proof. destruct c as [[] [] [] [] [] [] [] []]; reflexivity. Qed.

Lemma lower_char_white_space (c : ascii) :
  is_white_space (lower_char c) = is_white_space c.
Proof. destruct c as [[] [] [] [] [] [] [] []]; reflexivity. Qed.

Lemma toLowerCase_idem (s : string) : toLowerCase (toLowerCase s) = toLowerCase s.
Proof. apply toLowerCase_fixed, toLowerCase_lower. Qed.

Lemma length_toLowerCase (s : string) :
  String.length (toLowerCase s) = String.length s.
Proof. induction s as [|c s IH]; simpl; [reflexivity | now rewrite IH]. Qed.

Lemma lastIndexOf_toLowerCase (s : string) :
  lastIndexOf (toLowerCase s) "@" = lastIndexOf s "@".
Proof.
  unfold lastIndexOf. generalize 0 (-1).
  induction s as [|c s IH]; intros i acc; simpl; [reflexivity|].
  now rewrite lower_char_at, IH.
Qed.

Lemma substring_toLowerCase (s : string) (n m : nat) :
  substring n m (toLowerCase s) = toLowerCase (substring n m s).
Proof.
  revert n m. induction s as [|c s IH]; intros [|n] [|m]; simpl; try reflexivity.
  - now rewrite IH.
  - apply IH.
  - apply IH.
Qed.

Lemma substr_toLowerCase (s : string) (start : Z) (len : option Z) :
  substr (toLowerCase s) start len = toLowerCase (substr s start len).
Proof.
  unfold substr. rewrite length_toLowerCase.
  destruct (_ <=? 0); [reflexivity | apply substring_toLowerCase].
Qed.

Lemma no_line_terminator_toLowerCase (s : string) :
  no_line_terminator (toLowerCase s) = no_line_terminator s.
Proof.
  unfold no_line_terminator. induction s as [|c s IH]; simpl; [reflexivity|].
  now rewrite lower_char_line_terminator, IH.
Qed.

Lemma replace_plus_tail_toLowerCase (s : string) :
  replace_plus_tail (toLowerCase s) = toLowerCase (replace_plus_tail s).
Proof.
  induction s as [|c s IH]; simpl; [reflexivity|].
  rewrite lower_char_plus, no_line_terminator_toLowerCase.
  destruct (Ascii.eqb c "+" && no_line_terminator s); simpl; [reflexivity|].
  now rewrite IH.
Qed.

Lemma normalized_toLowerCase {L : Libraries} (s : string) :
  normalized (AddrString (toLowerCase s)) = normalized (AddrString s).
Proof.
  destruct s as [|c s]; [reflexivity|].
  rewrite !normalized_string by reflexivity.
  unfold canonical_domain, local_part, domain_part.
  rewrite lastIndexOf_toLowerCase, !substr_toLowerCase.
  now rewrite replace_plus_tail_toLowerCase, !toLowerCase_idem.
Qed.

(** X22: letter case does not count.  Two addresses that are the same up
    to the case of their letters, in the local part or in the domain, have
    the same canonical string. *)
Theorem normalizeAddress_ignores_case {L : Libraries} (s1 s2 : string) :
  toLowerCase s1 = toLowerCase s2 ->
  normalized (AddrString s1) = normalized (AddrString s2).
Proof.
  intros H. rewrite <- (normalized_toLowerCase s1), <- (normalized_toLowerCase s2).
  now rewrite H.
Qed.

Lemma normalizeAddress_ignores_case_witness :
  let normalize := normalized (L := Sample.libraries) in
  normalize (AddrString "John.Doe@Example.COM") =
  normalize (AddrString "JOHN.doe@example.Com").
Proof.
  apply (normalizeAddress_ignores_case (L := Sample.libraries)
           "John.Doe@Example.COM" "JOHN.doe@example.Com").
  reflexivity.
Defined.

(** *** White space around an address *)

Lemma white_space_no_sign (ws : string) :
  white_space ws = true -> no_at_sign ws = true /\ no_plus_sign ws = true.
Proof.
  intros H. split; apply (str_all_impl is_white_space); try exact H;
    intros c; destruct c as [[] [] [] [] [] [] [] []]; vm_compute; congruence.
Qed.

Lemma str_all_append (P : ascii -> bool) (a b : string) :
  str_all P (a +:+ b) = str_all P a && str_all P b.
Proof.
  induction a as [|c a IH]; simpl; [reflexivity|]. now rewrite IH, andb_assoc.
Qed.

Lemma toLowerCase_append (a b : string) :
  toLowerCase (a +:+ b) = toLowerCase a +:+ toLowerCase b.
Proof. induction a as [|c a IH]; simpl; [reflexivity | now rewrite IH]. Qed.

Lemma white_space_toLowerCase (ws : string) :
  white_space (toLowerCase ws) = white_space ws.
Proof.
  unfold white_space. induction ws as [|c ws IH]; simpl; [reflexivity|].
  now rewrite lower_char_white_space, IH.
Qed.

Lemma replace_plus_tail_after (ws x : string) :
  no_plus_sign ws = true ->
  replace_plus_tail (ws +:+ x) = ws +:+ replace_plus_tail x.
Proof.
  intros H. induction ws as [|c ws IH]; simpl; [reflexivity|].
  simpl in H. apply andb_true_iff in H as [Hc H]. apply negb_true_iff in Hc.
  rewrite Hc. simpl. now rewrite IH.
Qed.

Lemma trimStart_leading (ws x : string) :
  white_space ws = true -> trimStart (ws +:+ x) = trimStart x.
Proof.
  intros H. induction ws as [|c ws IH]; simpl; [reflexivity|].
  simpl in H. apply andb_true_iff in H as [Hc H]. rewrite Hc. auto.
Qed.

Lemma trimEnd_white_space (ws : string) : white_space ws = true -> trimEnd ws = "".
Proof.
  intros H. induction ws as [|c ws IH]; [reflexivity|].
  simpl in H. apply andb_true_iff in H as [Hc H].
  rewrite trimEnd_cons, IH, Hc by exact H. reflexivity.
Qed.

Lemma trimEnd_trailing (x ws : string) :
  white_space ws = true -> trimEnd (x +:+ ws) = trimEnd x.
Proof.
  intros H. induction x as [|c x IH].
  - simpl. now apply trimEnd_white_space.
  - change (String c x +:+ ws) with (String c (x +:+ ws)).
    now rewrite !trimEnd_cons, IH.
Qed.

Lemma trimStart_trailing (x ws : string) :
  white_space ws = true ->
  (trimStart x = "" /\ trimStart (x +:+ ws) = trimStart ws) \/
  trimStart (x +:+ ws) = trimStart x +:+ ws.
Proof.
  intros H. induction x as [|c x IH]; simpl; [now left|].
  destruct (is_white_space c); [exact IH | now right].
Qed.

Lemma trim_leading (ws x : string) : white_space ws = true -> trim (ws +:+ x) = trim x.
Proof. intros H. unfold trim. now rewrite trimStart_leading. Qed.

Lemma trim_trailing (x ws : string) : white_space ws = true -> trim (x +:+ ws) = trim x.
Proof.
  intros H. unfold trim. destruct (trimStart_trailing x ws H) as [[E1 E2] | E].
  - rewrite E1, E2. simpl. apply trimEnd_white_space.
    now apply str_all_trimStart.
  - rewrite E. now apply trimEnd_trailing.
Qed.

(** X23: white space around an address does not count.  For a domain
    without an [@], white space before the local part and after the domain
    leaves the canonical string as it is. *)
Theorem normalizeAddress_ignores_blanks {L : Libraries} (before u d after : string) :
  white_space before = true -> white_space after = true -> no_at_sign d = true ->
  normalized (AddrString (before +:+ u +:+ "@" +:+ d +:+ after)) =
  normalized (AddrString (u +:+ "@" +:+ d)).
Proof.
  intros Hb Ha Hd.
  destruct (white_space_no_sign before Hb) as [_ Hbp].
  destruct (white_space_no_sign after Ha) as [Haa _].
  change (before +:+ u +:+ "@" +:+ d +:+ after)
    with (before +:+ u +:+ String "@" (d +:+ after)).
  rewrite <- append_assoc.
  change (u +:+ "@" +:+ d) with (u +:+ String "@" d).
  rewrite !normalized_string by apply truthy_append_cons.
  unfold canonical_domain, local_part, domain_part.
  assert (Hda : no_at_sign (d +:+ after) = true).
  { unfold no_at_sign in *. now rewrite str_all_append, Hd, Haa. }
  rewrite (lastIndexOf_split _ (before +:+ u) (d +:+ after) Hda).
  rewrite (lastIndexOf_split _ u d Hd).
  rewrite !substr_local, !substr_domain.
  unfold normalizeNFC.
  rewrite replace_plus_tail_after by exact Hbp.
  rewrite !toLowerCase_append.
  rewrite trim_leading by now rewrite white_space_toLowerCase.
  rewrite trim_trailing by now rewrite white_space_toLowerCase.
  reflexivity.
Qed.

Lemma normalizeAddress_ignores_blanks_witness :
  let normalize := normalized (L := Sample.libraries) in
  normalize (AddrString ("  alice@example.com " +:+ CRLF)) =
  normalize (AddrString "alice@example.com").
Proof.
  apply (normalizeAddress_ignores_blanks (L := Sample.libraries)
           "  " "alice" "example.com" (" " +:+ CRLF)); reflexivity.
Defined.

End Canonical.

(** ** More on the Received header *)
Module Trace.
Import JS JSFacts.

#[local] Arguments String.append : simpl nomatch.

Lemma trim_enclosed (c c' : ascii) (s : string) :
  is_white_space c = false -> is_white_space c' = false ->
  trim (String c (s +:+ String c' "")) = String c (s +:+ String c' "").
Proof.
  intros Hc Hc'. unfold trim. simpl. rewrite Hc.
  change (String c (s +:+ String c' "")) with (String c s +:+ String c' "").
  now apply trimEnd_last.
Qed.

(** X24: the origin of the Received header is never empty and never has
    white space at its ends, whatever the envelope holds. *)
Theorem received_origin_token {L : Libraries} (envelope : Envelope) :
  received_origin envelope <> "" /\
  trim (received_origin envelope) = received_origin envelope.
Proof.
  unfold received_origin. cbv zeta.
  destruct (1 <? _).
  - split; [discriminate|].
    change ("(" +:+ ?x +:+ ")") with (String "(" (x +:+ String ")" "")).
    now apply trim_enclosed.
  - unfold or_else. destruct (trim (join " " _)) as [|c t] eqn:E; simpl.
    + split; [discriminate | reflexivity].
    + split; [discriminate|]. rewrite <- E. apply trim_idem.
Qed.

(** X25: a client hostname that starts with a bracket, as an unresolved
    client shows, is left out: the header is the one of the same envelope
    without a client hostname. *)
Theorem received_unresolved_host {L : Libraries} (envelope : Envelope)
    (hostname rest : string) :
  e_originhost envelope = Some (String "[" rest) ->
  generateReceivedHeader envelope hostname =
  generateReceivedHeader (set_originhost envelope None) hostname.
Proof.
  intros H. unfold generateReceivedHeader, received_origin, received_originhost.
  rewrite H. reflexivity.
Qed.

Lemma received_unresolved_host_witness :
  let L := Sample.libraries in
  generateReceivedHeader (Sample.relayed (Some "203.0.113.5") (Some "[203.0.113.5]")) "mx1"
  = generateReceivedHeader (Sample.relayed (Some "203.0.113.5") None) "mx1".
Proof.
  intros L.
  apply (received_unresolved_host
           (Sample.relayed (Some "203.0.113.5") (Some "[203.0.113.5]")) "mx1"
           "203.0.113.5]").
  reflexivity.
Defined.

(** X26: the recipient shows in the header only when it is the only one:
    with no recipient or with several the header is the one of the same
    envelope without recipients. *)
Theorem received_several_recipients {L : Libraries} (envelope : Envelope)
    (hostname : string) :
  List.length (e_to envelope) <> 1%nat ->
  generateReceivedHeader envelope hostname =
  generateReceivedHeader (set_to envelope []) hostname.
Proof.
  intros H. unfold generateReceivedHeader, received_origin, received_originhost.
  destruct (e_to envelope) as [|a [|b l]] eqn:E; simpl in H; try congruence;
    reflexivity.
Qed.

Lemma received_several_recipients_witness :
  let L := Sample.libraries in
  let envelope :=
    mkEnvelope 3 "abc123" "feeder" "carol@example.net"
      ["bob@example.org"; "dave@example.org"] None (Some "203.0.113.5") None
      (Some "mail.example.com") (Some "ESMTP") None (Some 1470223927000)
      None None None None ([] : Sample.lines) in
  generateReceivedHeader envelope "mx1" =
    "Received: from mail.example.com [203.0.113.5]" +:+ CRLF +:+
    " by mx1 with ESMTP id abc123;" +:+ CRLF +:+
    " Wed, 03 Aug 2016 11:32:07 +0000".
Proof.
  intros L envelope.
  rewrite (received_several_recipients envelope "mx1") by (simpl; lia).
  reflexivity.
Defined.

End Trace.
